(** * ClarityCut: review timeline, skip policy and metrics

    A shallow embedding of the playback logic of
    [src/components/ReviewPhase.tsx] and of the metrics of the application
    root ([App], [calculateMetrics]).

    Numbers.  A JavaScript [number] that is finite is a rational, and on
    finite numbers the comparisons [<], [<=], [>=], [Math.max], [Math.min]
    and [Math.abs] of the source are the ones of [Q].  The arithmetic
    [+], [-], [*] is modelled exactly, without the rounding of IEEE-754
    doubles.  A division is modelled as partial: dividing by zero gives
    [NaN] or an infinity in the source and [None] here. *)

From Stdlib Require Import QArith Qminmax Qabs Lqa.
From Stdlib Require Import List String Bool Arith Lia.
From Stdlib Require Import ZArith Qround Ascii DecimalString Sorted Permutation.
Import ListNotations.
Open Scope Q_scope.

(** ** Numbers of the source *)

Module Num.

(** [a >= b] *)
Definition geb (a b : Q) : bool := Qle_bool b a.
(** [a <= b] *)
Definition leb (a b : Q) : bool := Qle_bool a b.
(** [a < b] *)
Definition ltb (a b : Q) : bool := negb (Qle_bool b a).
(** [a > b] *)
Definition gtb (a b : Q) : bool := negb (Qle_bool a b).

(** [a / b]: [None] when the source produces [NaN] or an infinity. *)
Definition div (a b : Q) : option Q :=
  if Qeq_bool b 0 then None else Some (a / b).

End Num.

(** ** Data model ([src/types.ts]) *)

Inductive CutType := cliche | filler | silence | repetition | stutter.

Inductive Status := accepted | rejected.

Definition Status_eqb (a b : Status) : bool :=
  match a, b with
  | accepted, accepted | rejected, rejected => true
  | _, _ => false
  end.

(** [interface CutEvent]; the field [end] of the source is [end_] here,
    [end] being a keyword. *)
Record CutEvent := mkCut {
  id : string;
  type : CutType;
  word : option string;
  start : Q;
  end_ : Q;
  confidence : Q;
  status : Status
}.

(** [interface ProcessingMetrics] *)
Record ProcessingMetrics := mkMetrics {
  originalDuration : Q;
  finalDuration : Q;
  cutsCount : nat;
  timeSaved : Q
}.

(** ** Skip policy of [checkTime] (ReviewPhase.tsx, lines 93-103) *)

(** The predicate given to [cuts.find]:
    [c.status === 'accepted' && time >= c.start && time < c.end]. *)
Definition insideAccepted (time : Q) (c : CutEvent) : bool :=
  Status_eqb (status c) accepted
  && Num.geb time (start c)
  && Num.ltb time (end_ c).

(** [const currentCut = cuts.find(...)]: the first match in list order. *)
Definition currentCut (cuts : list CutEvent) (time : Q) : option CutEvent :=
  find (insideAccepted time) cuts.

(** The value assigned to [videoRef.current.currentTime] when a cut is
    found: [currentCut.end]. *)
Definition jumpTarget (cuts : list CutEvent) (time : Q) : option Q :=
  option_map end_ (currentCut cuts time).

(** The number of jumps the policy makes when it is applied again at each
    jump target, and the position it ends at.  [fuel] bounds the number of
    applications. *)
Fixpoint skipJumps (fuel : nat) (cuts : list CutEvent) (time : Q) : nat * Q :=
  match fuel with
  | O => (O, time)
  | S fuel' =>
      match jumpTarget cuts time with
      | None => (O, time)
      | Some e => let (k, p) := skipJumps fuel' cuts e in (S k, p)
      end
  end.

(** The jumps of a stretch of playback: at each frame the policy is applied
    at the position read from the media element, which then advances by the
    next element of [advances] until the following frame.  The result is the
    number of jumps and the last position. *)
Fixpoint playFrames (cuts : list CutEvent) (advances : list Q) (time : Q)
  : nat * Q :=
  match advances with
  | [] => (O, time)
  | d :: rest =>
      match jumpTarget cuts time with
      | Some e => let (k, p) := playFrames cuts rest (e + d) in (S k, p)
      | None => playFrames cuts rest (time + d)
      end
  end.

(** ** The media element and the timeline widget *)

Module Video.
(** The part of [HTMLVideoElement] the component reads and writes. *)
Record t := mk { paused : bool; currentTime : Q }.

(** [v.currentTime = time]: the value the component assigns.  What a
    browser makes of a value outside the media is not modelled. *)
Definition seek (v : t) (time : Q) : t := mk (paused v) time.
Definition pause (v : t) : t := mk true (currentTime v).
(** [play()]: [ok] tells whether the returned promise is fulfilled. *)
Definition play (ok : bool) (v : t) : t :=
  if ok then mk false (currentTime v) else v.
End Video.

(** [getBoundingClientRect()] of the timeline track. *)
Record DOMRect := mkRect { left : Q; width : Q }.

(** ** State of the [ReviewPhase] component *)

Record State := mkState {
  videoRef : option Video.t;
  timelineRef : option DOMRect;
  isPlaying : bool;
  currentTime : Q;
  duration : Q;
  activeCutId : option string;
  isScrubbing : bool;
  hoverTime : option Q;
  wasPlayingRef : bool;
  previewEndTimeRef : option Q
}.

Definition set_videoRef (v : option Video.t) (s : State) : State :=
  mkState v (timelineRef s) (isPlaying s) (currentTime s) (duration s)
    (activeCutId s) (isScrubbing s) (hoverTime s) (wasPlayingRef s)
    (previewEndTimeRef s).

Definition setIsPlaying (b : bool) (s : State) : State :=
  mkState (videoRef s) (timelineRef s) b (currentTime s) (duration s)
    (activeCutId s) (isScrubbing s) (hoverTime s) (wasPlayingRef s)
    (previewEndTimeRef s).

Definition setCurrentTime (time : Q) (s : State) : State :=
  mkState (videoRef s) (timelineRef s) (isPlaying s) time (duration s)
    (activeCutId s) (isScrubbing s) (hoverTime s) (wasPlayingRef s)
    (previewEndTimeRef s).

Definition setDuration (d : Q) (s : State) : State :=
  mkState (videoRef s) (timelineRef s) (isPlaying s) (currentTime s) d
    (activeCutId s) (isScrubbing s) (hoverTime s) (wasPlayingRef s)
    (previewEndTimeRef s).

Definition setActiveCutId (a : option string) (s : State) : State :=
  mkState (videoRef s) (timelineRef s) (isPlaying s) (currentTime s)
    (duration s) a (isScrubbing s) (hoverTime s) (wasPlayingRef s)
    (previewEndTimeRef s).

Definition setIsScrubbing (b : bool) (s : State) : State :=
  mkState (videoRef s) (timelineRef s) (isPlaying s) (currentTime s)
    (duration s) (activeCutId s) b (hoverTime s) (wasPlayingRef s)
    (previewEndTimeRef s).

Definition set_wasPlayingRef (b : bool) (s : State) : State :=
  mkState (videoRef s) (timelineRef s) (isPlaying s) (currentTime s)
    (duration s) (activeCutId s) (isScrubbing s) (hoverTime s) b
    (previewEndTimeRef s).

Definition set_previewEndTimeRef (p : option Q) (s : State) : State :=
  mkState (videoRef s) (timelineRef s) (isPlaying s) (currentTime s)
    (duration s) (activeCutId s) (isScrubbing s) (hoverTime s)
    (wasPlayingRef s) p.

(** The state the component is mounted with: [useState(false)],
    [useState(0)], [useState(0)], [useState(null)], ... *)
Definition initialState (v : option Video.t) (r : option DOMRect) : State :=
  mkState v r false 0 0 None false None false None.

(** ** [toggleCutStatus] (lines 55-57) *)

Definition withStatus (c : CutEvent) (s : Status) : CutEvent :=
  mkCut (id c) (type c) (word c) (start c) (end_ c) (confidence c) s.

Definition toggleCutStatus (i : string) (s : Status) (prev : list CutEvent)
  : list CutEvent :=
  map (fun c => if String.eqb (id c) i then withStatus c s else c) prev.

(** ** [checkTime], one run of the frame callback (lines 63-116) *)

(** [time >= (c.start - 1.5) && time <= (c.end + 1.5)] *)
Definition nearPreview (time : Q) (c : CutEvent) : bool :=
  Num.geb time (start c - (3 # 2)) && Num.leb time (end_ c + (3 # 2)).

(** [Math.abs(c.start - time) < 2] *)
Definition upcoming (time : Q) (c : CutEvent) : bool :=
  Num.ltb (Qabs (start c - time)) 2.

Definition checkTime (cuts : list CutEvent) (s : State) : State :=
  if isScrubbing s then s
  else
    match videoRef s with
    | Some v =>
        if negb (Video.paused v) then
          let time := Video.currentTime v in
          let s1 := setCurrentTime time s in
          match previewEndTimeRef s1 with
          | Some bound =>
              if Num.geb time bound then
                set_previewEndTimeRef None
                  (setIsPlaying false (set_videoRef (Some (Video.pause v)) s1))
              else
                match find (nearPreview time) cuts with
                | Some c => setActiveCutId (Some (id c)) s1
                | None => s1
                end
          | None =>
              match currentCut cuts time with
              | Some c =>
                  set_videoRef (Some (Video.seek v (end_ c)))
                    (setActiveCutId (Some (id c)) s1)
              | None =>
                  setActiveCutId (option_map id (find (upcoming time) cuts)) s1
              end
          end
        else if negb (Bool.eqb (Video.paused v) (negb (isPlaying s)))
        then setIsPlaying (negb (Video.paused v)) s
        else s
    | None => s
    end.

(** ** [previewCut] (lines 123-138) *)

(** [Math.max(0, cut.start - 1)] *)
Definition previewStart (cut : CutEvent) : Q := Qmax 0 (start cut - 1).

(** [Math.min(duration, cut.end + 1)] *)
Definition previewEnd (d : Q) (cut : CutEvent) : Q := Qmin d (end_ cut + 1).

(** [playOk] is the outcome of the promise of [play()]; its continuation
    [setIsPlaying(true)] is run within the step. *)
Definition previewCut (playOk : bool) (cut : CutEvent) (s : State) : State :=
  let s1 := setActiveCutId (Some (id cut)) s in
  match videoRef s1 with
  | Some v =>
      let s2 := set_previewEndTimeRef (Some (previewEnd (duration s1) cut)) s1 in
      let v1 := Video.seek v (previewStart cut) in
      let s3 := set_videoRef (Some (Video.play playOk v1)) s2 in
      if playOk then setIsPlaying true s3 else s3
  | None => s1
  end.

(** ** [skip] (lines 141-149) *)

(** [Math.max(0, Math.min(duration, videoRef.current.currentTime + seconds))] *)
Definition skipTime (d time seconds : Q) : Q :=
  Qmax 0 (Qmin d (time + seconds)).

Definition skip (seconds : Q) (s : State) : State :=
  match videoRef s with
  | Some v =>
      let newTime := skipTime (duration s) (Video.currentTime v) seconds in
      set_previewEndTimeRef None
        (setCurrentTime newTime (set_videoRef (Some (Video.seek v newTime)) s))
  | None => s
  end.

(** ** Scrubbing (lines 166-215) *)

(** [Math.max(0, Math.min(e.clientX - rect.left, rect.width))] *)
Definition scrubX (rect : DOMRect) (clientX : Q) : Q :=
  Qmax 0 (Qmin (clientX - left rect) (width rect)).

(** [percentage = x / rect.width] *)
Definition scrubPercentage (rect : DOMRect) (clientX : Q) : option Q :=
  Num.div (scrubX rect clientX) (width rect).

(** [newTime = percentage * duration] *)
Definition toTime (percentage d : Q) : Q := percentage * d.

(** [newTime >= c.start && newTime < c.end] *)
Definition cutAt (time : Q) (c : CutEvent) : bool :=
  Num.geb time (start c) && Num.ltb time (end_ c).

(** The outcome of a handler that may throw: assigning a value that is not
    finite to [currentTime] of the media element raises a [TypeError].  The
    state left behind by a handler that throws is not modelled. *)
Inductive Outcome :=
| Done (s : State)
| Thrown.

Definition handleScrubMove (cuts : list CutEvent) (clientX : Q) (s : State)
  : Outcome :=
  match timelineRef s, videoRef s with
  | Some rect, Some v =>
      if Num.gtb (duration s) 0 then
        match scrubPercentage rect clientX with
        | Some percentage =>
            let newTime := toTime percentage (duration s) in
            let s1 := setCurrentTime newTime s in
            let s2 := set_videoRef (Some (Video.seek v newTime)) s1 in
            Done (setActiveCutId (option_map id (find (cutAt newTime) cuts)) s2)
        | None => Thrown
        end
      else Done s
  | _, _ => Done s
  end.

Definition handleScrubStart (cuts : list CutEvent) (clientX : Q) (s : State)
  : Outcome :=
  match timelineRef s, videoRef s with
  | Some _, Some v =>
      let s1 := set_previewEndTimeRef None (setIsScrubbing true s) in
      let s2 :=
        if negb (Video.paused v)
        then set_videoRef (Some (Video.pause v)) (set_wasPlayingRef true s1)
        else set_wasPlayingRef false s1 in
      handleScrubMove cuts clientX s2
  | _, _ => Done s
  end.

Definition handleScrubEnd (playOk : bool) (s : State) : State :=
  if negb (isScrubbing s) then s
  else
    let s1 := setIsScrubbing false s in
    let s2 :=
      match videoRef s1 with
      | Some v =>
          if wasPlayingRef s1
          then set_videoRef (Some (Video.play playOk v)) s1
          else s1
      | None => s1
      end in
    set_wasPlayingRef false s2.

(** ** Rendering of the timeline (lines 330-383) *)

(** [currentTime / duration], the fraction of the track at which a time is
    drawn. *)
Definition timeFraction (time d : Q) : option Q := Num.div time d.

(** The value of a style written [`${(a / d) * 100}%`]. *)
Inductive Percent :=
| Pct (p : Q)
| NotFinitePct.

Definition percentOf (a d : Q) : Percent :=
  match timeFraction a d with
  | Some f => Pct (f * 100)
  | None => NotFinitePct
  end.

(** The [left] offset of the play-head and the [width] of the progress fill
    (lines 334 and 369): [(currentTime / duration) * 100], drawn in every
    state. *)
Definition playheadLeft (s : State) : Percent :=
  percentOf (currentTime s) (duration s).

(** The [left] offset of a cut marker (line 349). *)
Definition markerLeft (s : State) (cut : CutEvent) : Percent :=
  percentOf (start cut) (duration s).

(** The time tooltip (lines 374-383), drawn only when
    [(isScrubbing || hoverTime !== null) && duration > 0]; [None] when it is
    not drawn. *)
Definition tooltipLeft (s : State) : option Percent :=
  match isScrubbing s, hoverTime s with
  | true, _ =>
      if Num.gtb (duration s) 0
      then Some (percentOf (currentTime s) (duration s)) else None
  | false, Some h =>
      if Num.gtb (duration s) 0
      then Some (percentOf h (duration s)) else None
  | false, None => None
  end.

(** ** Summary numbers *)

(** [c => c.status === 'accepted'] *)
Definition isAccepted (c : CutEvent) : bool := Status_eqb (status c) accepted.

(** [stats] of the review view (lines 252-256). *)
Record Stats := mkStats { count : nat; removed : Q }.

Definition stats (cuts : list CutEvent) : Stats :=
  let acceptedL := filter isAccepted cuts in
  let timeSaved := fold_left (fun acc c => acc + (end_ c - start c)) acceptedL 0 in
  mkStats (List.length acceptedL) timeSaved.

(** [calculateMetrics] of the application root (lines 127-136). *)
Definition calculateMetrics (cuts : list CutEvent) (originalDuration : Q)
  : ProcessingMetrics :=
  let acceptedCuts := filter isAccepted cuts in
  let timeSaved :=
    fold_left (fun acc curr => acc + (end_ curr - start curr)) acceptedCuts 0 in
  mkMetrics originalDuration (originalDuration - timeSaved)
    (List.length acceptedCuts) timeSaved.

(** ** The metrics as the specification words them *)

(** The sum of [end - start] over the intervals with status [accepted]. *)
Fixpoint spec_timeSaved (cuts : list CutEvent) : Q :=
  match cuts with
  | [] => 0
  | c :: rest =>
      match status c with
      | accepted => (end_ c - start c) + spec_timeSaved rest
      | rejected => spec_timeSaved rest
      end
  end.

(** The number of intervals with status [accepted]. *)
Fixpoint spec_cutsCount (cuts : list CutEvent) : nat :=
  match cuts with
  | [] => O
  | c :: rest =>
      match status c with
      | accepted => S (spec_cutsCount rest)
      | rejected => spec_cutsCount rest
      end
  end.

(** ** Measure of the skip policy *)

(** The accepted intervals that end after [time]: the ones a later jump can
    still select. *)
Definition endsAfter (time : Q) (c : CutEvent) : bool :=
  isAccepted c && Num.ltb time (end_ c).

Definition remaining (cuts : list CutEvent) (time : Q) : nat :=
  List.length (filter (endsAfter time) cuts).

(** ** Example data *)

Definition exCut (i : string) (s e : Q) (st : Status) : CutEvent :=
  mkCut i filler None s e (9 # 10) st.

(** Two accepted intervals that overlap, in list order. *)
Definition overlapCuts : list CutEvent :=
  [exCut "cut-0" 5 8 accepted; exCut "cut-1" 6 12 accepted].

(** The intervals of the metrics example. *)
Definition metricsCuts : list CutEvent :=
  [exCut "cut-0" 2 4 accepted;
   exCut "cut-1" 10 (21 # 2) accepted;
   exCut "cut-2" 20 21 rejected].

(** A mounted component whose media has a duration of 100 seconds and is
    paused at the beginning; the timeline track is 500 pixels wide. *)
Definition loadedState : State :=
  setDuration 100
    (initialState (Some (Video.mk true 0)) (Some (mkRect 0 500))).

(** The same component before the metadata of the media is known:
    [duration] still has its initial value 0. *)
Definition unloadedState : State :=
  initialState (Some (Video.mk true 0)) (Some (mkRect 0 500)).

(** The interval of the preview example. *)
Definition previewedCut : CutEvent := exCut "cut-0" 10 12 accepted.

(** The media element is playing at [time]. *)
Definition playingAt (time : Q) (s : State) : State :=
  set_videoRef (Some (Video.mk false time)) s.

(** A media of 10 seconds playing at second 7, and an accepted interval
    that ends after the end of the media. *)
Definition shortPlaying : State := playingAt 7 (setDuration 10 loadedState).

Definition lateCut : CutEvent := exCut "cut-0" 5 12 accepted.

(** * The rest of the review view *)

(** ** Events of the media element and the play button *)

(** [onLoadedMetadata], [onPlay] and [onPause] of the [<video>]
    (ReviewPhase.tsx, lines 284-286). *)
Definition onLoadedMetadata (d : Q) (s : State) : State := setDuration d s.
Definition onPlay (s : State) : State := setIsPlaying true s.
Definition onPause (s : State) : State := setIsPlaying false s.

(** The play button (lines 415-420):
    [if (isPlaying) videoRef.current.pause(); else videoRef.current.play()]. *)
Definition togglePlay (playOk : bool) (s : State) : State :=
  match videoRef s with
  | Some v =>
      if isPlaying s
      then set_videoRef (Some (Video.pause v)) s
      else set_videoRef (Some (Video.play playOk v)) s
  | None => s
  end.

(** A run of frames. *)
Fixpoint frames (n : nat) (cuts : list CutEvent) (s : State) : State :=
  match n with
  | O => s
  | S n' => frames n' cuts (checkTime cuts s)
  end.

(** ** [formatTime] and [formatTimeExact] (lines 151-163) *)

Module Fmt.

(** [Math.trunc], used by the remainder. *)
Definition trunc (q : Q) : Z :=
  if Qle_bool 0 q then Qfloor q else Qceiling q.

(** [a % b] for a divisor that is not zero: the remainder has the sign of
    the dividend. *)
Definition rem (a b : Q) : Q := a - b * inject_Z (trunc (a / b)).

(** [n.toString()] of an integer, in decimal digits. *)
Definition toString (n : Z) : string := NilZero.string_of_int (Z.to_int n).

Fixpoint zeros (n : nat) : string :=
  match n with
  | O => EmptyString
  | S n' => String "0"%char (zeros n')
  end.

(** [s.padStart(n, '0')] *)
Definition padStart (n : nat) (s : string) : string :=
  (zeros (n - String.length s) ++ s)%string.

(** [Math.floor(seconds / 60)] *)
Definition mins (seconds : Q) : Z := Qfloor (seconds / 60).

(** [Math.floor(seconds % 60)] *)
Definition secs (seconds : Q) : Z := Qfloor (rem seconds 60).


End Fmt.

Definition formatTime (seconds : Q) : string :=
  (Fmt.toString (Fmt.mins seconds) ++ ":"
   ++ Fmt.padStart 2 (Fmt.toString (Fmt.secs seconds)))%string.


(** ** Orderings of a list of cuts *)

(** The cuts are in the order of their start times, as the analysis
    returns them ([cuts.sort((a, b) => a.start - b.start)]). *)
Definition sortedByStart (cuts : list CutEvent) : Prop :=
  StronglySorted (fun a b => start a <= start b) cuts.

(** Each cut ends before the next one starts. *)
Definition nonOverlapping (cuts : list CutEvent) : Prop :=
  Sorted (fun a b => end_ a <= start b) cuts.

(** * The application root and the upload view *)

(** ** Configuration ([src/types.ts]) *)

Inductive OutputFormat := mp4 | mov | avi | mkv.

(** ['original' | '4k' | '1080p' | '720p' | '480p'] *)
Inductive OutputQuality := original | q4k | q1080p | q720p | q480p.

Record VideoConfig := mkConfig {
  removeCliches : bool;
  removeFillers : bool;
  removeSilence : bool;
  removeRepetition : bool;
  removeStuttering : bool;
  silenceThreshold : Q;
  customPhrases : list string;
  outputFormat : OutputFormat;
  outputQuality : OutputQuality
}.

Module PhraseList.
(** [interface PhraseList] *)
Record t := mk { id : string; name : string; phrases : list string }.
End PhraseList.

Definition CutType_eqb (a b : CutType) : bool :=
  match a, b with
  | cliche, cliche | filler, filler | silence, silence
  | repetition, repetition | stutter, stutter => true
  | _, _ => false
  end.

(** ** [handleStartAnalysis] of the application root (lines 67-101) *)

(** [originalDuration || 60]: the fallback when the metadata did not
    load. *)
Definition mockDuration (originalDuration : Q) : Q :=
  if Qeq_bool originalDuration 0 then 60 else originalDuration.

(** The predicate of [generatedCuts.filter] (lines 79-92). *)
Definition keepCut (config : VideoConfig) (c : CutEvent) : bool :=
  if CutType_eqb (type c) cliche && negb (removeCliches config) then false
  else if CutType_eqb (type c) filler && negb (removeFillers config)
  then false
  else
    let rest :=
      if CutType_eqb (type c) repetition && negb (removeRepetition config)
      then false
      else if CutType_eqb (type c) stutter && negb (removeStuttering config)
      then false
      else true in
    if CutType_eqb (type c) silence then
      if negb (removeSilence config) then false
      else if Num.ltb (end_ c - start c) (silenceThreshold config) then false
      else rest
    else rest.

Definition filteredCuts (config : VideoConfig) (generatedCuts : list CutEvent)
  : list CutEvent :=
  filter (keepCut config) generatedCuts.

(** The flag of the configuration that switches a category on. *)
Definition flagOf (config : VideoConfig) (t : CutType) : bool :=
  match t with
  | cliche => removeCliches config
  | filler => removeFillers config
  | silence => removeSilence config
  | repetition => removeRepetition config
  | stutter => removeStuttering config
  end.

(** ** Saved phrase lists ([handleSaveList], [handleDeleteList],
    lines 114-125) *)

(** [now] is the value of [Date.now()]. *)
Definition handleSaveList (now : Z) (name : string) (phrases : list string)
           (prev : list PhraseList.t) : list PhraseList.t :=
  prev ++ [PhraseList.mk (Fmt.toString now) name phrases].

Definition handleDeleteList (i : string) (prev : list PhraseList.t)
  : list PhraseList.t :=
  filter (fun l => negb (String.eqb (PhraseList.id l) i)) prev.

(** The initial state of the application root (lines 14-43). *)
Definition defaultConfig : VideoConfig :=
  mkConfig true true true true true 1 [] mp4 q1080p.

Definition defaultLists : list PhraseList.t :=
  [PhraseList.mk "default-1" "Church Service"
     ["Hallelujah"; "Amen"; "Praise God"; "Blessing"; "Scripture"];
   PhraseList.mk "default-2" "Corporate Meeting"
     ["Touch base"; "Circle back"; "Synergy"; "Deep dive"; "Offline"];
   PhraseList.mk "default-3" "Gen Z Slang"
     ["Literally"; "No cap"; "Vibe"; "Bet"; "Lowkey"]]%string.

(** ** The upload view ([src/components/UploadPhase.tsx]) *)

Module Upload.

(** The white space that [trim] removes, among the code units below 256:
    tab, line feed, vertical tab, form feed, carriage return, space and
    no-break space.  A string stands for a sequence of such code units. *)
Definition isWhiteSpace (a : ascii) : bool :=
  match nat_of_ascii a with
  | 9%nat | 10%nat | 11%nat | 12%nat | 13%nat | 32%nat | 160%nat => true
  | _ => false
  end.

Fixpoint trimStart (s : string) : string :=
  match s with
  | EmptyString => EmptyString
  | String a rest => if isWhiteSpace a then trimStart rest else s
  end.

Fixpoint trimEnd (s : string) : string :=
  match s with
  | EmptyString => EmptyString
  | String a rest =>
      match trimEnd rest with
      | EmptyString => if isWhiteSpace a then EmptyString
                       else String a EmptyString
      | r => String a r
      end
  end.

(** [s.trim()] *)
Definition trim (s : string) : string := trimEnd (trimStart s).

(** The truthiness of a string. *)
Definition truthy (s : string) : bool :=
  match s with EmptyString => false | _ => true end.

(** The state of the view together with the two pieces of state of the
    application root that it edits, [config] and [savedLists]. *)
Record State := mk {
  config : VideoConfig;
  savedLists : list PhraseList.t;
  newPhrase : string;
  selectedListId : string;
  isNamingList : bool;
  newListName : string
}.

Definition setConfig (f : VideoConfig -> VideoConfig) (s : State) : State :=
  mk (f (config s)) (savedLists s) (newPhrase s) (selectedListId s)
     (isNamingList s) (newListName s).

Definition withPhrases (ps : list string) (c : VideoConfig) : VideoConfig :=
  mkConfig (removeCliches c) (removeFillers c) (removeSilence c)
    (removeRepetition c) (removeStuttering c) (silenceThreshold c) ps
    (outputFormat c) (outputQuality c).

(** The keys the toggles of the view pass to [toggleSetting]. *)
Inductive SettingKey :=
| kCliches | kFillers | kRepetition | kStuttering | kSilence.

(** [setConfig(prev => ({ ...prev, [key]: !prev[key] }))] (lines 73-76) *)
Definition toggleSetting (key : SettingKey) (s : State) : State :=
  setConfig
    (fun c =>
       match key with
       | kCliches =>
           mkConfig (negb (removeCliches c)) (removeFillers c)
             (removeSilence c) (removeRepetition c) (removeStuttering c)
             (silenceThreshold c) (customPhrases c) (outputFormat c)
             (outputQuality c)
       | kFillers =>
           mkConfig (removeCliches c) (negb (removeFillers c))
             (removeSilence c) (removeRepetition c) (removeStuttering c)
             (silenceThreshold c) (customPhrases c) (outputFormat c)
             (outputQuality c)
       | kSilence =>
           mkConfig (removeCliches c) (removeFillers c)
             (negb (removeSilence c)) (removeRepetition c)
             (removeStuttering c) (silenceThreshold c) (customPhrases c)
             (outputFormat c) (outputQuality c)
       | kRepetition =>
           mkConfig (removeCliches c) (removeFillers c) (removeSilence c)
             (negb (removeRepetition c)) (removeStuttering c)
             (silenceThreshold c) (customPhrases c) (outputFormat c)
             (outputQuality c)
       | kStuttering =>
           mkConfig (removeCliches c) (removeFillers c) (removeSilence c)
             (removeRepetition c) (negb (removeStuttering c))
             (silenceThreshold c) (customPhrases c) (outputFormat c)
             (outputQuality c)
       end) s.

(** [addCustomPhrase] (lines 78-86) *)
Definition addCustomPhrase (s : State) : State :=
  if truthy (trim (newPhrase s))
     && Nat.ltb (List.length (customPhrases (config s))) 10
  then
    mk (withPhrases (customPhrases (config s) ++ [trim (newPhrase s)])
          (config s))
       (savedLists s) EmptyString (selectedListId s) (isNamingList s)
       (newListName s)
  else s.

(** [prev.customPhrases.filter((_, i) => i !== index)] *)
Definition removeIndex {A : Type} (index : nat) (l : list A) : list A :=
  map snd
    (filter (fun p => negb (Nat.eqb (fst p) index))
       (combine (seq 0 (List.length l)) l)).

(** [removeCustomPhrase] (lines 88-93) *)
Definition removeCustomPhrase (index : nat) (s : State) : State :=
  setConfig (fun c => withPhrases (removeIndex index (customPhrases c)) c) s.

(** [handleLoadList] (lines 95-101) *)
Definition handleLoadList (listId : string) (s : State) : State :=
  let s1 := mk (config s) (savedLists s) (newPhrase s) listId
               (isNamingList s) (newListName s) in
  match find (fun l => String.eqb (PhraseList.id l) listId) (savedLists s1)
  with
  | Some l => setConfig (withPhrases (PhraseList.phrases l)) s1
  | None => s1
  end.

(** [saveCurrentList] (lines 103-109), with [onSaveList] of the
    application root. *)
Definition saveCurrentList (now : Z) (s : State) : State :=
  if truthy (trim (newListName s))
     && Nat.ltb 0 (List.length (customPhrases (config s)))
  then
    mk (config s)
       (handleSaveList now (trim (newListName s))
          (customPhrases (config s)) (savedLists s))
       (newPhrase s) (selectedListId s) false EmptyString
  else s.

(** The delete button (lines 265-270), once the user has confirmed. *)
Definition deleteSelectedList (s : State) : State :=
  mk (config s) (handleDeleteList (selectedListId s) (savedLists s))
     (newPhrase s) EmptyString (isNamingList s) (newListName s).

(** The text inputs. *)
Definition setNewPhrase (v : string) (s : State) : State :=
  mk (config s) (savedLists s) v (selectedListId s) (isNamingList s)
     (newListName s).

Definition setNewListName (v : string) (s : State) : State :=
  mk (config s) (savedLists s) (newPhrase s) (selectedListId s)
     (isNamingList s) v.

(** What the user can do in the view. *)
Inductive Action :=
| Toggle (key : SettingKey)
| TypePhrase (v : string)
| AddPhrase
| RemovePhrase (index : nat)
| LoadList (listId : string)
| TypeListName (v : string)
| SaveList (now : Z)
| DeleteList.

Definition step (s : State) (a : Action) : State :=
  match a with
  | Toggle key => toggleSetting key s
  | TypePhrase v => setNewPhrase v s
  | AddPhrase => addCustomPhrase s
  | RemovePhrase index => removeCustomPhrase index s
  | LoadList listId => handleLoadList listId s
  | TypeListName v => setNewListName v s
  | SaveList now => saveCurrentList now s
  | DeleteList => deleteSelectedList s
  end.

(** The view as it is first shown. *)
Definition initial : State :=
  mk defaultConfig defaultLists EmptyString EmptyString false EmptyString.

End Upload.

(** * The analysis service ([src/services/geminiService.ts]) *)

Module Mock.

(** [parseFloat(x.toFixed(2))]: the multiple of 0.01 nearest to [x], a tie
    going away from zero. *)
Definition toFixed2 (x : Q) : Q :=
  if Num.ltb x 0
  then - (inject_Z (Qfloor (- x * 100 + (1 # 2))) / 100)
  else inject_Z (Qfloor (x * 100 + (1 # 2))) / 100.

(** The values of the calls of [Math.random()] of one iteration of the
    loop, in the order of the calls: the start, the roll of the type, the
    choice of the word (not made for a silence) and the confidence. *)
Record Draws := mkDraws { rStart : Q; rType : Q; rWord : Q; rConf : Q }.

Definition fillers : list string :=
  ["Um"; "Uh"; "Like"; "You know"; "Er"]%string.
Definition cliches : list string :=
  ["At the end of the day"; "To be honest"; "Hallelujah"; "Literally";
   "Basically"]%string.
Definition reps : list string :=
  ["I mean, I mean"; "You know, you know"; "It's just, it's just";
   "I was, I was"; "Basically, basically"]%string.
Definition stutters : list string :=
  ["Th-th-the"; "P-p-please"; "W-w-what"; "B-b-but"; "I-I"; "We-we"]%string.

(** [words[Math.floor(r * words.length)]]; [None] is [undefined]. *)
Definition pick (words : list string) (r : Q) : option string :=
  let i := Qfloor (r * inject_Z (Z.of_nat (List.length words))) in
  if (i <? 0)%Z then None else nth_error words (Z.to_nat i).

(** [Math.max(5, Math.floor(duration / 10))] *)
Definition numberOfCuts (duration : Q) : Z :=
  Z.max 5 (Qfloor (duration / 10)).

(** The body of the loop (lines 69-117), for the iteration [i]. *)
Definition mockCut (duration : Q) (i : nat) (d : Draws) : CutEvent :=
  let start := rStart d * (duration - 5) in
  let typeRoll := rType d in
  let '(type, word, length) :=
    if Num.ltb typeRoll (35 # 100)
    then (filler, pick fillers (rWord d), 4 # 10)
    else if Num.ltb typeRoll (55 # 100)
    then (cliche, pick cliches (rWord d), 12 # 10)
    else if Num.ltb typeRoll (70 # 100)
    then (repetition, pick reps (rWord d), 1)
    else if Num.ltb typeRoll (85 # 100)
    then (stutter, pick stutters (rWord d), 5 # 10)
    else (silence, Some "(Silence)"%string, 2) in
  mkCut ("cut-" ++ Fmt.toString (Z.of_nat i))%string type word
    (toFixed2 start) (toFixed2 (start + length))
    ((8 # 10) + rConf d * (19 # 100)) accepted.

(** [cuts.sort((a, b) => a.start - b.start)]: the stable sort by start. *)
Fixpoint insert (x : CutEvent) (l : list CutEvent) : list CutEvent :=
  match l with
  | [] => [x]
  | y :: rest =>
      if Num.leb (start x) (start y) then x :: l else y :: insert x rest
  end.

Definition sort (l : list CutEvent) : list CutEvent :=
  fold_right insert [] l.

(** The cuts before the final sort. *)
Definition generated (duration : Q) (draws : nat -> Draws) : list CutEvent :=
  map (fun i => mockCut duration i (draws i))
      (seq 0 (Z.to_nat (numberOfCuts duration))).

(** [analyzeVideoMock] (lines 62-120); [draws i] holds the random numbers
    of the iteration [i]. *)
Definition analyzeVideoMock (duration : Q) (draws : nat -> Draws)
  : list CutEvent :=
  sort (generated duration draws).

(** The random numbers are in the range of [Math.random()]. *)
Definition inRange (d : Draws) : Prop :=
  (0 <= rStart d /\ rStart d < 1) /\ (0 <= rType d /\ rType d < 1)
  /\ (0 <= rWord d /\ rWord d < 1) /\ (0 <= rConf d /\ rConf d < 1).

(** ** The report without a model ([generateEditingReport], lines 15-55) *)

(** [cuts.filter(c => c.type === t).length] *)
Definition countType (t : CutType) (cuts : list CutEvent) : nat :=
  List.length (filter (fun c => CutType_eqb (type c) t) cuts).

(** [cuts.reduce((acc, c) => acc + (c.end - c.start), 0)] *)
Definition removedTotal (cuts : list CutEvent) : Q :=
  fold_left (fun acc c => acc + (end_ c - start c)) cuts 0.

(** [(removedTotal / duration) * 100], printed by the report as the
    percentage by which the video is more concise. *)
Definition concisePercent (cuts : list CutEvent) (duration : Q) : Percent :=
  percentOf (removedTotal cuts) duration.

End Mock.

(** The cuts the application root hands to the review
    ([handleStartAnalysis]). *)
Definition reviewCuts (config : VideoConfig) (originalDuration : Q)
           (draws : nat -> Mock.Draws) : list CutEvent :=
  filteredCuts config (Mock.analyzeVideoMock (mockDuration originalDuration)
                         draws).

(** The limit the upload view keeps: at most ten custom phrases, in the
    configuration and in every saved list. *)
Definition phrasesBounded (s : Upload.State) : Prop :=
  (List.length (customPhrases (Upload.config s)) <= 10)%nat
  /\ Forall (fun l => (List.length (PhraseList.phrases l) <= 10)%nat)
       (Upload.savedLists s).

(** The category of cuts that a toggle of the upload view switches. *)
Definition keyCategory (key : Upload.SettingKey) : CutType :=
  match key with
  | Upload.kCliches => cliche
  | Upload.kFillers => filler
  | Upload.kRepetition => repetition
  | Upload.kStuttering => stutter
  | Upload.kSilence => silence
  end.

(** * The processing view ([src/components/ProcessPhase.tsx]) *)

Module Process.

(** ** The simulated rendering (lines 453-475) *)

Record State := mk { progress : Z; isComplete : bool }.

(** [useState(0)] and [useState(false)]. *)
Definition initial : State := mk 0 false.

(** The increment of one step; [r1] and [r2] are the values of the two
    calls of [Math.random()], the second one made only while
    [progress > 60 && progress < 80]. *)
Definition increment (p : Z) (r1 r2 : Q) : Z :=
  if (60 <? p)%Z && (p <? 80)%Z
  then Z.max 1 (Qfloor (r2 * 3))
  else Z.max 1 (Qfloor (r1 * 5)).

(** One run of the effect and, when it sets a timer, the firing of the
    timer. *)
Definition tick (s : State) (r : Q * Q) : State :=
  if (100 <=? progress s)%Z then
    if isComplete s then s else mk (progress s) true
  else
    mk (Z.min 100 (progress s + increment (progress s) (fst r) (snd r)))
       (isComplete s).

Definition run (rs : list (Q * Q)) (s : State) : State :=
  fold_left tick rs s.

(** The stages that [getStageInfo] (lines 442-448) reports, by their
    labels: "Initializing Engine", "Analyzing Audio", "Trimming Segments",
    "Stitching & Encoding" and "Finalizing". *)
Inductive Stage :=
| Initializing | Analyzing | Trimming | Stitching | Finalizing.

Definition getStageInfo (p : Z) : Stage :=
  if (p <? 20)%Z then Initializing
  else if (p <? 45)%Z then Analyzing
  else if (p <? 70)%Z then Trimming
  else if (p <? 90)%Z then Stitching
  else Finalizing.

(** The place of a stage in the order in which the view lists them. *)
Definition stageRank (st : Stage) : nat :=
  match st with
  | Initializing => 0
  | Analyzing => 1
  | Trimming => 2
  | Stitching => 3
  | Finalizing => 4
  end.

(** ** The skip of the preview player (lines 489-518) *)

(** [c.status === 'accepted' && time >= c.start && time < (c.end - 0.1)] *)
Definition triggers (time : Q) (c : CutEvent) : bool :=
  Status_eqb (status c) accepted
  && Num.geb time (start c)
  && Num.ltb time (end_ c - (1 # 10)).

Definition activeCut (cuts : list CutEvent) (time : Q) : option CutEvent :=
  find (triggers time) cuts.

(** [activeCut.end + 0.05] *)
Definition target (c : CutEvent) : Q := end_ c + (1 # 20).

Definition checkTime (cuts : list CutEvent) (video : option Video.t)
  : option Video.t :=
  match video with
  | Some v =>
      if negb (Video.paused v) then
        match activeCut cuts (Video.currentTime v) with
        | Some c => Some (Video.seek v (target c))
        | None => Some v
        end
      else Some v
  | None => None
  end.

(** The jumps of a stretch of playback in the preview player, the media
    advancing by the elements of [advances] between the frames. *)
Fixpoint playFrames (cuts : list CutEvent) (advances : list Q) (time : Q)
  : nat * Q :=
  match advances with
  | [] => (O, time)
  | d :: rest =>
      match activeCut cuts time with
      | Some c =>
          let (k, p) := playFrames cuts rest (target c + d) in (S k, p)
      | None => playFrames cuts rest (time + d)
      end
  end.

(** The accepted cuts that can still trigger at or after [time]. *)
Definition pending (cuts : list CutEvent) (time : Q) : nat :=
  List.length
    (filter (fun c => isAccepted c && Num.ltb time (end_ c - (1 # 10))) cuts).

End Process.

(** * Properties *)

(** ** Comparisons *)

Module NumFacts.

Lemma geb_spec a b : Num.geb a b = true <-> b <= a.
Proof. unfold Num.geb. apply Qle_bool_iff. Qed.

Lemma leb_spec a b : Num.leb a b = true <-> a <= b.
Proof. unfold Num.leb. apply Qle_bool_iff. Qed.

Lemma ltb_spec a b : Num.ltb a b = true <-> a < b.
Proof.
  unfold Num.ltb. rewrite negb_true_iff. split; intro H.
  - apply Qnot_le_lt. intro Hle. apply Qle_bool_iff in Hle. congruence.
  - destruct (Qle_bool b a) eqn:E; [|reflexivity].
    apply Qle_bool_iff in E. exfalso. apply (Qlt_not_le _ _ H E).
Qed.

Lemma ltb_false a b : Num.ltb a b = false <-> b <= a.
Proof. unfold Num.ltb. rewrite negb_false_iff. apply Qle_bool_iff. Qed.

Lemma gtb_spec a b : Num.gtb a b = true <-> b < a.
Proof. unfold Num.gtb. apply (ltb_spec b a). Qed.


Lemma ltb_irrefl a : Num.ltb a a = false.
Proof. apply ltb_false. apply Qle_refl. Qed.

End NumFacts.

(** ** The containment test *)

Lemma Status_eqb_spec (a b : Status) : Status_eqb a b = true <-> a = b.
Proof. destruct a, b; simpl; split; congruence. Qed.

Lemma cutAt_spec (t : Q) (c : CutEvent) :
  cutAt t c = true <-> start c <= t /\ t < end_ c.
Proof.
  unfold cutAt. rewrite andb_true_iff.
  rewrite NumFacts.geb_spec, NumFacts.ltb_spec. tauto.
Qed.

Lemma insideAccepted_spec (t : Q) (c : CutEvent) :
  insideAccepted t c = true <->
  status c = accepted /\ start c <= t /\ t < end_ c.
Proof.
  unfold insideAccepted. rewrite !andb_true_iff.
  rewrite Status_eqb_spec, NumFacts.geb_spec, NumFacts.ltb_spec. tauto.
Qed.

Lemma insideAccepted_cutAt (t : Q) (c : CutEvent) :
  insideAccepted t c = isAccepted c && cutAt t c.
Proof. unfold insideAccepted, isAccepted, cutAt. now rewrite andb_assoc. Qed.

Lemma currentCut_singleton (t : Q) (c : CutEvent) :
  currentCut [c] t = Some c <-> insideAccepted t c = true.
Proof.
  unfold currentCut. simpl.
  destruct (insideAccepted t c); split; congruence.
Qed.

(** C2. The containment test of the skip evaluation is half-open: the test
    [time >= c.start && time < c.end] holds exactly when
    [start c <= t < end_ c]; the predicate searched for by [checkTime] is this
    test on an accepted interval, and a search over the interval alone
    reports it exactly then.  The end point itself is never contained. *)
Theorem C2_containment_half_open (c : CutEvent) (t : Q) :
  (cutAt t c = true <-> start c <= t /\ t < end_ c)
  /\ insideAccepted t c = isAccepted c && cutAt t c
  /\ (insideAccepted t c = true <->
      status c = accepted /\ start c <= t /\ t < end_ c)
  /\ (currentCut [c] t = Some c <->
      status c = accepted /\ start c <= t /\ t < end_ c)
  /\ cutAt (end_ c) c = false
  /\ insideAccepted (end_ c) c = false
  /\ currentCut [c] (end_ c) = None.
Proof.
  assert (Hend : cutAt (end_ c) c = false).
  { unfold cutAt. rewrite NumFacts.ltb_irrefl. apply andb_false_r. }
  assert (Hin : insideAccepted (end_ c) c = false).
  { rewrite insideAccepted_cutAt, Hend. apply andb_false_r. }
  split; [apply cutAt_spec|].
  split; [apply insideAccepted_cutAt|].
  split; [apply insideAccepted_spec|].
  split; [rewrite currentCut_singleton; apply insideAccepted_spec|].
  split; [exact Hend|].
  split; [exact Hin|].
  unfold currentCut. simpl. now rewrite Hin.
Qed.

(** ** Which interval the skip decision selects *)

Lemma find_first {A : Type} (f : A -> bool) (l : list A) (x : A) :
  find f l = Some x ->
  exists l1 l2,
    l = l1 ++ x :: l2 /\ f x = true /\ (forall y, In y l1 -> f y = false).
Proof.
  induction l as [|a l IH]; simpl; [discriminate|].
  destruct (f a) eqn:E.
  - intros [= ->]. exists [], l. simpl. tauto.
  - intros H. destruct (IH H) as (l1 & l2 & -> & Hx & Hl1).
    exists (a :: l1), l2. simpl. repeat split; auto.
    intros y [<-|Hy]; auto.
Qed.

Lemma find_none_all {A : Type} (f : A -> bool) (l : list A) :
  find f l = None <-> (forall y, In y l -> f y = false).
Proof.
  split.
  - intros H y Hy. exact (find_none f l H y Hy).
  - induction l as [|a l IH]; simpl; [reflexivity|].
    intros H. rewrite (H a (or_introl eq_refl)). apply IH.
    intros y Hy. apply H. now right.
Qed.

(** The claim C1 fails on [overlapCuts]: both intervals are accepted and
    contain [7], the second one ends later, and the jump target is the end
    of the first one, [8], which is not [12]. *)
Lemma C1_latest_end_counterexample :
  insideAccepted 7 (exCut "cut-0" 5 8 accepted) = true
  /\ insideAccepted 7 (exCut "cut-1" 6 12 accepted) = true
  /\ end_ (exCut "cut-0" 5 8 accepted) < end_ (exCut "cut-1" 6 12 accepted)
  /\ jumpTarget overlapCuts 7 = Some 8
  /\ ~ (forall e, jumpTarget overlapCuts 7 = Some e -> e == 12).
Proof.
  split; [reflexivity|]. split; [reflexivity|]. split; [reflexivity|].
  split; [reflexivity|].
  intros H. specialize (H 8 eq_refl). discriminate H.
Qed.

(** C1, amended.  The skip decision selects the first interval, in list
    order, that is accepted and contains the position (half-open), and the
    jump target is the end of that interval; no interval before it in the
    list is accepted and contains the position.  When no accepted interval
    contains the position there is no jump.  On [overlapCuts] at [7] the
    jump target is [8]. *)
Theorem C1_skip_selects_first_containing (cuts : list CutEvent) (t : Q) :
  match currentCut cuts t with
  | Some c =>
      jumpTarget cuts t = Some (end_ c)
      /\ status c = accepted /\ start c <= t /\ t < end_ c
      /\ exists l1 l2,
           cuts = l1 ++ c :: l2
           /\ forall c', In c' l1 -> insideAccepted t c' = false
  | None =>
      jumpTarget cuts t = None
      /\ forall c', In c' cuts -> insideAccepted t c' = false
  end
  /\ jumpTarget overlapCuts 7 = Some 8.
Proof.
  split; [|reflexivity].
  unfold jumpTarget.
  destruct (currentCut cuts t) as [c|] eqn:E; simpl.
  - split; [reflexivity|].
    unfold currentCut in E.
    destruct (find_first _ _ _ E) as (l1 & l2 & Hl & Hc & Hl1).
    apply insideAccepted_spec in Hc.
    destruct Hc as (Ha & Hs & He).
    repeat split; auto.
    exists l1, l2. split; assumption.
  - split; [reflexivity|].
    apply find_none_all. exact E.
Qed.

(** ** The skip policy stops *)

Lemma filter_length_le {A : Type} (f g : A -> bool) (l : list A) :
  (forall x, In x l -> g x = true -> f x = true) ->
  (List.length (filter g l) <= List.length (filter f l))%nat.
Proof.
  induction l as [|a l IH]; simpl; intros H; [lia|].
  assert (IH' : (List.length (filter g l) <= List.length (filter f l))%nat).
  { apply IH. intros x Hx. apply H. now right. }
  destruct (g a) eqn:Eg.
  - rewrite (H a (or_introl eq_refl) Eg). simpl. lia.
  - destruct (f a); simpl; lia.
Qed.

Lemma filter_length_lt {A : Type} (f g : A -> bool) (l : list A) (x : A) :
  (forall y, In y l -> g y = true -> f y = true) ->
  In x l -> f x = true -> g x = false ->
  (List.length (filter g l) < List.length (filter f l))%nat.
Proof.
  induction l as [|a l IH]; simpl; intros H Hx Hf Hg; [contradiction|].
  assert (Hle : (List.length (filter g l) <= List.length (filter f l))%nat).
  { apply filter_length_le. intros y Hy. apply H. now right. }
  destruct Hx as [->|Hx].
  - rewrite Hf, Hg. simpl. lia.
  - assert (IH' : (List.length (filter g l) < List.length (filter f l))%nat).
    { apply IH; auto. }
    destruct (g a) eqn:Eg.
    + rewrite (H a (or_introl eq_refl) Eg). simpl. lia.
    + destruct (f a); simpl; lia.
Qed.

Lemma remaining_le_accepted (cuts : list CutEvent) (t : Q) :
  (remaining cuts t <= List.length (filter isAccepted cuts))%nat.
Proof.
  unfold remaining. apply filter_length_le.
  intros c _ H. unfold endsAfter in H.
  apply andb_true_iff in H. tauto.
Qed.

Lemma jumpTarget_some (cuts : list CutEvent) (t e : Q) :
  jumpTarget cuts t = Some e ->
  exists c, In c cuts /\ insideAccepted t c = true /\ e = end_ c.
Proof.
  unfold jumpTarget, currentCut.
  destruct (find (insideAccepted t) cuts) as [c|] eqn:E; simpl; [|discriminate].
  intros [= <-]. apply find_some in E. exists c. tauto.
Qed.

(** A jump moves the position strictly forward. *)
Lemma jump_forward (cuts : list CutEvent) (t e : Q) :
  jumpTarget cuts t = Some e -> t < e.
Proof.
  intros H. destruct (jumpTarget_some _ _ _ H) as (c & _ & Hc & ->).
  apply insideAccepted_spec in Hc. tauto.
Qed.

(** A jump uses up the interval it selects. *)
Lemma jump_decreases (cuts : list CutEvent) (t e : Q) :
  jumpTarget cuts t = Some e -> (remaining cuts e < remaining cuts t)%nat.
Proof.
  intros H. destruct (jumpTarget_some _ _ _ H) as (c & Hin & Hc & ->).
  apply insideAccepted_spec in Hc. destruct Hc as (Ha & Hs & He).
  unfold remaining. apply filter_length_lt with (x := c); auto.
  - intros y _ Hy. unfold endsAfter in *.
    apply andb_true_iff in Hy. destruct Hy as [Hy1 Hy2].
    rewrite Hy1. simpl. apply NumFacts.ltb_spec. apply NumFacts.ltb_spec in Hy2.
    apply Qlt_trans with (end_ c); assumption.
  - unfold endsAfter, isAccepted. rewrite Ha. simpl.
    apply NumFacts.ltb_spec. assumption.
  - unfold endsAfter. rewrite NumFacts.ltb_irrefl. apply andb_false_r.
Qed.

Lemma remaining_zero_no_jump (cuts : list CutEvent) (t : Q) :
  remaining cuts t = O -> jumpTarget cuts t = None.
Proof.
  intros H. destruct (jumpTarget cuts t) as [e|] eqn:E; [|reflexivity].
  apply jump_decreases in E. lia.
Qed.

Lemma skipJumps_bounded (cuts : list CutEvent) (n : nat) :
  forall t, (remaining cuts t <= n)%nat ->
  exists k p,
    skipJumps n cuts t = (k, p)
    /\ (k <= remaining cuts t)%nat
    /\ jumpTarget cuts p = None.
Proof.
  induction n as [|n IH]; intros t Hn; simpl.
  - exists O, t. repeat split; [lia|].
    apply remaining_zero_no_jump. lia.
  - destruct (jumpTarget cuts t) as [e|] eqn:E.
    + pose proof (jump_decreases _ _ _ E) as Hd.
      destruct (IH e) as (k & p & Hk & Hle & Hp); [lia|].
      rewrite Hk. exists (S k), p. repeat split; [lia|assumption].
    + exists O, t. repeat split; [lia|assumption].
Qed.

(** Once the policy has stopped, more fuel changes nothing. *)
Lemma skipJumps_fuel (cuts : list CutEvent) (n : nat) :
  forall t m, (remaining cuts t <= n)%nat -> (n <= m)%nat ->
  skipJumps m cuts t = skipJumps n cuts t.
Proof.
  induction n as [|n IH]; intros t m Hn Hm.
  - assert (E : jumpTarget cuts t = None)
      by (apply remaining_zero_no_jump; lia).
    destruct m; simpl; [reflexivity|now rewrite E].
  - destruct m as [|m]; [lia|]. simpl.
    destruct (jumpTarget cuts t) as [e|] eqn:E; [|reflexivity].
    pose proof (jump_decreases _ _ _ E) as Hd.
    rewrite (IH e m); [reflexivity|lia|lia].
Qed.

Lemma remaining_mono (cuts : list CutEvent) (t t' : Q) :
  t <= t' -> (remaining cuts t' <= remaining cuts t)%nat.
Proof.
  intros Hle. unfold remaining. apply filter_length_le.
  intros c _ H. unfold endsAfter in *.
  apply andb_true_iff in H. destruct H as [Ha Hlt].
  rewrite Ha. simpl. apply NumFacts.ltb_spec.
  apply NumFacts.ltb_spec in Hlt. lra.
Qed.

(** During playback, with the media advancing between the frames, the
    frames make at most as many jumps as there are accepted intervals. *)
Lemma playFrames_jumps_bounded (cuts : list CutEvent) (advances : list Q) :
  Forall (fun d => 0 <= d) advances ->
  forall t,
    (fst (playFrames cuts advances t) <= remaining cuts t)%nat
    /\ (fst (playFrames cuts advances t)
        <= List.length (filter isAccepted cuts))%nat.
Proof.
  intros Hadv.
  assert (H : forall t,
             (fst (playFrames cuts advances t) <= remaining cuts t)%nat).
  { induction Hadv as [|d rest Hd _ IH]; intros t; simpl; [lia|].
    destruct (jumpTarget cuts t) as [e|] eqn:E.
    - pose proof (jump_decreases _ _ _ E) as Hdec.
      specialize (IH (e + d)).
      assert (Hm : (remaining cuts (e + d) <= remaining cuts e)%nat)
        by (apply remaining_mono; lra).
      destruct (playFrames cuts rest (e + d)) as [k p]. simpl in *. lia.
    - specialize (IH (t + d)).
      assert (Hm : (remaining cuts (t + d) <= remaining cuts t)%nat)
        by (apply remaining_mono; lra).
      lia. }
  intros t. split; [apply H|].
  pose proof (H t). pose proof (remaining_le_accepted cuts t). lia.
Qed.

(** In the Playing state a frame moves the media element as the policy
    says: to the jump target when there is one, and not at all otherwise. *)
Lemma checkTime_applies_policy (cuts : list CutEvent) (s : State)
      (v : Video.t) :
  isScrubbing s = false -> videoRef s = Some v -> Video.paused v = false ->
  previewEndTimeRef s = None ->
  option_map Video.currentTime (videoRef (checkTime cuts s))
  = Some (match jumpTarget cuts (Video.currentTime v) with
          | Some e => e
          | None => Video.currentTime v
          end).
Proof.
  intros Hs Hv Hp Hb. unfold checkTime, jumpTarget.
  rewrite Hs, Hv, Hp. simpl. rewrite Hb.
  destruct (currentCut cuts (Video.currentTime v)); simpl;
    [reflexivity|now rewrite Hv].
Qed.

(** C7. From every position, applying the skip policy again and again
    makes at most N jumps, N the number of accepted intervals, and ends at a
    position that no accepted interval contains; fuel beyond N changes
    nothing, so there is no endless sequence of jumps, whatever the overlaps
    or adjacencies. *)
Theorem C7_skip_policy_converges (cuts : list CutEvent) (t : Q) :
  exists k p,
    skipJumps (List.length (filter isAccepted cuts)) cuts t = (k, p)
    /\ (k <= List.length (filter isAccepted cuts))%nat
    /\ jumpTarget cuts p = None
    /\ (forall c, In c cuts -> status c = accepted ->
                  ~ (start c <= p /\ p < end_ c))
    /\ (forall fuel, (List.length (filter isAccepted cuts) <= fuel)%nat ->
                     skipJumps fuel cuts t = (k, p)).
Proof.
  pose proof (remaining_le_accepted cuts t) as HN.
  destruct (skipJumps_bounded cuts _ t HN) as (k & p & Hk & Hle & Hp).
  exists k, p. repeat split; try assumption.
  - lia.
  - intros c Hin Ha [Hs He].
    unfold jumpTarget in Hp.
    destruct (currentCut cuts p) as [c'|] eqn:E; [discriminate|].
    apply find_none_all with (y := c) in E; [|assumption].
    assert (insideAccepted p c = true) by (apply insideAccepted_spec; tauto).
    congruence.
  - intros fuel Hf. rewrite <- Hk. apply skipJumps_fuel; assumption.
Qed.

(** ** Metrics *)

Lemma fold_left_sum (l : list CutEvent) :
  forall a,
    fold_left (fun acc c => acc + (end_ c - start c)) l a
    == a + spec_timeSaved (map (fun c => withStatus c accepted) l).
Proof.
  induction l as [|c l IH]; intros a; simpl.
  - ring.
  - rewrite IH. ring.
Qed.

Lemma spec_timeSaved_filter (cuts : list CutEvent) :
  spec_timeSaved (map (fun c => withStatus c accepted) (filter isAccepted cuts))
  == spec_timeSaved cuts.
Proof.
  induction cuts as [|c l IH]; simpl; [reflexivity|].
  unfold isAccepted at 1. destruct (status c); simpl.
  - rewrite IH. reflexivity.
  - exact IH.
Qed.

Lemma accepted_time_sum (cuts : list CutEvent) :
  fold_left (fun acc c => acc + (end_ c - start c)) (filter isAccepted cuts) 0
  == spec_timeSaved cuts.
Proof.
  rewrite fold_left_sum, spec_timeSaved_filter. ring.
Qed.

Lemma accepted_count (cuts : list CutEvent) :
  List.length (filter isAccepted cuts) = spec_cutsCount cuts.
Proof.
  induction cuts as [|c l IH]; simpl; [reflexivity|].
  unfold isAccepted at 1. destruct (status c); simpl; congruence.
Qed.

(** C6. The metrics of [calculateMetrics]: [timeSaved] is the sum of
    [end - start] over the accepted intervals, [cutsCount] is the number of
    accepted intervals, [finalDuration] is [originalDuration - timeSaved] and
    [originalDuration] is passed through; on [metricsCuts] with an original
    duration of 60 they are 2.5, 2 and 57.5. *)
Theorem C6_metrics (cuts : list CutEvent) (d : Q) :
  let m := calculateMetrics cuts d in
  timeSaved m == spec_timeSaved cuts
  /\ cutsCount m = spec_cutsCount cuts
  /\ finalDuration m == d - spec_timeSaved cuts
  /\ finalDuration m = originalDuration m - timeSaved m
  /\ originalDuration m = d
  /\ timeSaved (calculateMetrics metricsCuts 60) == 5 # 2
  /\ cutsCount (calculateMetrics metricsCuts 60) = 2%nat
  /\ finalDuration (calculateMetrics metricsCuts 60) == 115 # 2.
Proof.
  simpl.
  split; [apply accepted_time_sum|].
  split; [apply accepted_count|].
  split; [rewrite accepted_time_sum; reflexivity|].
  repeat split.
Qed.

(** C9. The summary numbers of the review view and the metrics of the
    application root agree on every list of cuts: the same count of accepted
    cuts and the same time saved. *)
Theorem C9_stats_agree_with_metrics (cuts : list CutEvent) (d : Q) :
  count (stats cuts) = cutsCount (calculateMetrics cuts d)
  /\ removed (stats cuts) = timeSaved (calculateMetrics cuts d).
Proof.
  unfold stats, calculateMetrics. simpl. split; reflexivity.
Qed.

(** ** Toggling the status of a cut *)

Lemma toggleCutStatus_nth (i : string) (s : Status) (cuts : list CutEvent)
      (n : nat) :
  nth_error (toggleCutStatus i s cuts) n =
  option_map (fun c => if String.eqb (id c) i then withStatus c s else c)
             (nth_error cuts n).
Proof.
  unfold toggleCutStatus. apply nth_error_map.
Qed.

(** C10. [toggleCutStatus] keeps the length and the order of the list; at
    every index, a cut whose id matches gets the target status and keeps its
    id, type, word, start, end and confidence, and a cut whose id does not
    match is left as it is. *)
Theorem C10_toggleCutStatus_frame (cuts : list CutEvent) (i : string)
        (s : Status) :
  List.length (toggleCutStatus i s cuts) = List.length cuts
  /\ map id (toggleCutStatus i s cuts) = map id cuts
  /\ forall n c,
       nth_error cuts n = Some c ->
       exists c',
         nth_error (toggleCutStatus i s cuts) n = Some c'
         /\ id c' = id c /\ type c' = type c /\ word c' = word c
         /\ start c' = start c /\ end_ c' = end_ c
         /\ confidence c' = confidence c
         /\ (id c = i -> status c' = s)
         /\ (id c <> i -> c' = c).
Proof.
  split; [apply length_map|].
  split.
  - unfold toggleCutStatus. rewrite map_map. apply map_ext.
    intros c. destruct (String.eqb (id c) i); reflexivity.
  - intros n c Hn. rewrite toggleCutStatus_nth, Hn. simpl.
    destruct (String.eqb_spec (id c) i) as [E|E].
    + exists (withStatus c s). simpl. repeat split; tauto.
    + exists c. repeat split; auto. intros E'. contradiction.
Qed.

(** ** Preview of a segment *)

Lemma previewCut_sets (ok : bool) (cut : CutEvent) (s : State) (v : Video.t) :
  videoRef s = Some v ->
  videoRef (previewCut ok cut s)
    = Some (Video.play ok (Video.seek v (Qmax 0 (start cut - 1))))
  /\ previewEndTimeRef (previewCut ok cut s)
    = Some (Qmin (duration s) (end_ cut + 1))
  /\ activeCutId (previewCut ok cut s) = Some (id cut)
  /\ duration (previewCut ok cut s) = duration s
  /\ isScrubbing (previewCut ok cut s) = isScrubbing s.
Proof.
  intros Hv. unfold previewCut. simpl. rewrite Hv.
  destruct ok; simpl; repeat split.
Qed.

(** While a preview bound is set, a frame never seeks the media element. *)
Lemma checkTime_preview_no_seek (cuts : list CutEvent) (s : State) (b : Q) :
  previewEndTimeRef s = Some b ->
  option_map Video.currentTime (videoRef (checkTime cuts s))
  = option_map Video.currentTime (videoRef s).
Proof.
  intros Hb. unfold checkTime.
  destruct (isScrubbing s); [reflexivity|].
  destruct (videoRef s) as [v|] eqn:Hv; [|now rewrite Hv].
  destruct (Video.paused v) eqn:Hp; simpl.
  - destruct (isPlaying s); simpl; now rewrite Hv.
  - rewrite Hb.
    destruct (Num.geb (Video.currentTime v) b); simpl; [reflexivity|].
    destruct (find (nearPreview (Video.currentTime v)) cuts); simpl;
      now rewrite Hv.
Qed.

(** The frame at which the position has reached the bound stops playback
    and clears the bound. *)
Lemma checkTime_preview_stops (cuts : list CutEvent) (s : State)
      (v : Video.t) (b : Q) :
  isScrubbing s = false -> videoRef s = Some v -> Video.paused v = false ->
  previewEndTimeRef s = Some b -> b <= Video.currentTime v ->
  videoRef (checkTime cuts s) = Some (Video.mk true (Video.currentTime v))
  /\ isPlaying (checkTime cuts s) = false
  /\ previewEndTimeRef (checkTime cuts s) = None.
Proof.
  intros Hs Hv Hp Hb Hle. unfold checkTime.
  rewrite Hs, Hv, Hp. simpl. rewrite Hb.
  apply NumFacts.geb_spec in Hle. rewrite Hle. simpl. repeat split.
Qed.

(** Before the bound the preview goes on: the media element is left alone
    and the bound stays. *)
Lemma checkTime_preview_continues (cuts : list CutEvent) (s : State)
      (v : Video.t) (b : Q) :
  isScrubbing s = false -> videoRef s = Some v -> Video.paused v = false ->
  previewEndTimeRef s = Some b -> Video.currentTime v < b ->
  videoRef (checkTime cuts s) = Some v
  /\ isPlaying (checkTime cuts s) = isPlaying s
  /\ previewEndTimeRef (checkTime cuts s) = Some b.
Proof.
  intros Hs Hv Hp Hb Hlt. unfold checkTime.
  rewrite Hs, Hv, Hp. simpl. rewrite Hb.
  replace (Num.geb (Video.currentTime v) b) with false.
  - destruct (find (nearPreview (Video.currentTime v)) cuts); simpl;
      rewrite ?Hv, ?Hb; repeat split.
  - symmetry. unfold Num.geb.
    destruct (Qle_bool b (Video.currentTime v)) eqn:E; [|reflexivity].
    apply Qle_bool_iff in E. exfalso. apply (Qlt_not_le _ _ Hlt E).
Qed.

(** C5. A preview command for an interval [c] seeks the media element to
    [max(0, c.start - 1)], sets the preview bound to
    [min(duration, c.end + 1)] and starts playback.  Afterwards, as long as
    the bound is set, no frame seeks the media element, whatever the status
    of the intervals and wherever the position lies; the frame at which the
    position has reached the bound pauses playback and clears the bound, and
    a frame before the bound leaves playback and bound as they are. *)
Theorem C5_preview_bounded (cuts : list CutEvent) (c : CutEvent) (s : State)
        (v : Video.t) (Hv : videoRef s = Some v) :
  (option_map Video.currentTime (videoRef (previewCut true c s))
     = Some (Qmax 0 (start c - 1))
   /\ previewEndTimeRef (previewCut true c s)
     = Some (Qmin (duration s) (end_ c + 1))
   /\ option_map Video.paused (videoRef (previewCut true c s)) = Some false
   /\ isPlaying (previewCut true c s) = true)
  /\ (forall s1 b,
        previewEndTimeRef s1 = Some b ->
        option_map Video.currentTime (videoRef (checkTime cuts s1))
        = option_map Video.currentTime (videoRef s1))
  /\ (forall s1 v1 b,
        isScrubbing s1 = false -> videoRef s1 = Some v1 ->
        Video.paused v1 = false -> previewEndTimeRef s1 = Some b ->
        b <= Video.currentTime v1 ->
        option_map Video.paused (videoRef (checkTime cuts s1)) = Some true
        /\ isPlaying (checkTime cuts s1) = false
        /\ previewEndTimeRef (checkTime cuts s1) = None)
  /\ (forall s1 v1 b,
        isScrubbing s1 = false -> videoRef s1 = Some v1 ->
        Video.paused v1 = false -> previewEndTimeRef s1 = Some b ->
        Video.currentTime v1 < b ->
        videoRef (checkTime cuts s1) = Some v1
        /\ previewEndTimeRef (checkTime cuts s1) = Some b).
Proof.
  split.
  { destruct (previewCut_sets true c s v Hv) as (H1 & H2 & _).
    rewrite H1, H2. simpl. repeat split.
    unfold previewCut. simpl. now rewrite Hv. }
  split; [intros s1 b; apply checkTime_preview_no_seek|].
  split.
  - intros s1 v1 b Hs Hv1 Hp Hb Hle.
    destruct (checkTime_preview_stops cuts s1 v1 b Hs Hv1 Hp Hb Hle)
      as (H1 & H2 & H3).
    rewrite H1. simpl. repeat split; assumption.
  - intros s1 v1 b Hs Hv1 Hp Hb Hlt.
    destruct (checkTime_preview_continues cuts s1 v1 b Hs Hv1 Hp Hb Hlt)
      as (H1 & _ & H3).
    split; assumption.
Qed.

(** The preview example: interval 10 to 12, accepted, duration 100.  The
    command seeks to 9 with bound 13; a frame at 11, inside the accepted
    interval, does not jump; the frame at 13 ends the preview. *)
Lemma C5_preview_bounded_witness :
  videoRef loadedState = Some (Video.mk true 0)
  /\ option_map Video.currentTime
       (videoRef (previewCut true previewedCut loadedState)) = Some 9
  /\ previewEndTimeRef (previewCut true previewedCut loadedState) = Some 13
  /\ option_map Video.currentTime
       (videoRef (checkTime [previewedCut]
          (playingAt 11 (previewCut true previewedCut loadedState))))
     = Some 11
  /\ previewEndTimeRef
       (checkTime [previewedCut]
          (playingAt 13 (previewCut true previewedCut loadedState)))
     = None.
Proof.
  destruct (C5_preview_bounded [previewedCut] previewedCut loadedState
              (Video.mk true 0) eq_refl) as (Hcmd & Hno & Hstop & _).
  destruct Hcmd as (Hpos & Hbound & _).
  split; [reflexivity|].
  split; [exact Hpos|].
  split; [exact Hbound|].
  split.
  - exact (Hno (playingAt 11 (previewCut true previewedCut loadedState)) 13
               eq_refl).
  - destruct (Hstop (playingAt 13 (previewCut true previewedCut loadedState))
                    (Video.mk false 13) 13 eq_refl eq_refl eq_refl eq_refl)
      as (_ & _ & H); [|exact H].
    apply Qle_refl.
Defined.

(** ** The values assigned to the position *)

Lemma skipTime_range (d time seconds : Q) :
  0 <= d -> 0 <= skipTime d time seconds /\ skipTime d time seconds <= d.
Proof.
  intros Hd. unfold skipTime. split.
  - apply Q.le_max_l.
  - apply Q.max_lub; [assumption|apply Q.le_min_l].
Qed.

Lemma scrubX_range (rect : DOMRect) (clientX : Q) :
  0 <= scrubX rect clientX
  /\ (0 <= width rect -> scrubX rect clientX <= width rect)
  /\ (width rect < 0 -> scrubX rect clientX == 0).
Proof.
  unfold scrubX. split; [apply Q.le_max_l|]. split.
  - intros Hw. apply Q.max_lub; [assumption|apply Q.le_min_r].
  - intros Hw.
    destruct (Q.max_spec 0 (Qmin (clientX - left rect) (width rect)))
      as [[Hlt _]|[_ Heq]]; [|assumption].
    exfalso. pose proof (Q.le_min_r (clientX - left rect) (width rect)). lra.
Qed.

Lemma scrubPercentage_range (rect : DOMRect) (clientX p : Q) :
  scrubPercentage rect clientX = Some p -> 0 <= p /\ p <= 1.
Proof.
  unfold scrubPercentage, Num.div.
  destruct (Qeq_bool (width rect) 0) eqn:E; [discriminate|].
  intros [= <-]. apply Qeq_bool_neq in E.
  destruct (scrubX_range rect clientX) as (H0 & Hpos & Hneg).
  destruct (Qlt_le_dec (width rect) 0) as [Hw|Hw].
  - rewrite (Hneg Hw). unfold Qdiv. rewrite Qmult_0_l. lra.
  - assert (Hw' : 0 < width rect).
    { apply Qle_lteq in Hw. destruct Hw as [Hw|Hw]; [assumption|].
      exfalso. apply E. symmetry. exact Hw. }
    split.
    + apply Qle_shift_div_l; [assumption|]. lra.
    + apply Qle_shift_div_r; [assumption|]. specialize (Hpos Hw). lra.
Qed.

Lemma toTime_range (p d : Q) :
  0 <= p -> p <= 1 -> 0 <= d -> 0 <= toTime p d /\ toTime p d <= d.
Proof.
  intros Hp0 Hp1 Hd. unfold toTime. split.
  - apply Qmult_le_0_compat; assumption.
  - setoid_replace d with (1 * d) at 2 by ring.
    apply Qmult_le_compat_r; assumption.
Qed.

Lemma previewStart_range (c : CutEvent) (d : Q) :
  0 <= previewStart c
  /\ (0 <= d -> start c - 1 <= d -> previewStart c <= d).
Proof.
  unfold previewStart. split; [apply Q.le_max_l|].
  intros Hd Hs. apply Q.max_lub; assumption.
Qed.

(** What the handlers write into the media element. *)

Lemma skip_assigns (seconds : Q) (s : State) (v : Video.t) :
  videoRef s = Some v ->
  videoRef (skip seconds s)
    = Some (Video.seek v (skipTime (duration s) (Video.currentTime v) seconds))
  /\ currentTime (skip seconds s)
    = skipTime (duration s) (Video.currentTime v) seconds
  /\ previewEndTimeRef (skip seconds s) = None.
Proof.
  intros Hv. unfold skip. rewrite Hv. simpl. repeat split.
Qed.

Lemma handleScrubMove_assigns (cuts : list CutEvent) (clientX : Q)
      (s s' : State) :
  handleScrubMove cuts clientX s = Done s' ->
  s' = s
  \/ exists rect v p,
       timelineRef s = Some rect /\ videoRef s = Some v
       /\ 0 < duration s
       /\ scrubPercentage rect clientX = Some p
       /\ videoRef s' = Some (Video.seek v (toTime p (duration s)))
       /\ currentTime s' = toTime p (duration s)
       /\ duration s' = duration s.
Proof.
  unfold handleScrubMove.
  destruct (timelineRef s) as [rect|] eqn:Hr; [|intros [= <-]; now left].
  destruct (videoRef s) as [v|] eqn:Hv; [|intros [= <-]; now left].
  destruct (Num.gtb (duration s) 0) eqn:Hd; [|intros [= <-]; now left].
  destruct (scrubPercentage rect clientX) as [p|] eqn:Hp; [|discriminate].
  intros [= <-]. right. exists rect, v, p.
  apply NumFacts.gtb_spec in Hd. simpl. repeat split; auto.
Qed.

Lemma checkTime_jump (cuts : list CutEvent) (s : State) (v : Video.t)
      (c : CutEvent) :
  isScrubbing s = false -> videoRef s = Some v -> Video.paused v = false ->
  previewEndTimeRef s = None ->
  currentCut cuts (Video.currentTime v) = Some c ->
  videoRef (checkTime cuts s) = Some (Video.seek v (end_ c))
  /\ activeCutId (checkTime cuts s) = Some (id c)
  /\ currentTime (checkTime cuts s) = Video.currentTime v.
Proof.
  intros Hs Hv Hp Hb Hc. unfold checkTime.
  rewrite Hs, Hv, Hp. simpl. rewrite Hb, Hc. simpl. repeat split.
Qed.

Lemma checkTime_no_jump (cuts : list CutEvent) (s : State) (v : Video.t) :
  isScrubbing s = false -> videoRef s = Some v -> Video.paused v = false ->
  previewEndTimeRef s = None ->
  currentCut cuts (Video.currentTime v) = None ->
  videoRef (checkTime cuts s) = Some v.
Proof.
  intros Hs Hv Hp Hb Hc. unfold checkTime.
  rewrite Hs, Hv, Hp. simpl. rewrite Hb, Hc. simpl. exact Hv.
Qed.

(** The claim C3 fails on [shortPlaying]: the frame finds the position
    inside the accepted interval [lateCut] and seeks the media element to
    the end of the interval, 12, beyond the duration 10.  A preview of an
    interval that starts at 12 seeks to 11, beyond the duration as well. *)
Lemma C3_clamp_counterexample :
  duration shortPlaying = 10
  /\ isScrubbing shortPlaying = false
  /\ previewEndTimeRef shortPlaying = None
  /\ option_map Video.currentTime (videoRef (checkTime [lateCut] shortPlaying))
     = Some 12
  /\ ~ (12 <= duration (checkTime [lateCut] shortPlaying))
  /\ option_map Video.currentTime
       (videoRef (previewCut true (exCut "cut-1" 12 13 accepted) shortPlaying))
     = Some 11
  /\ ~ (11 <= duration
                (previewCut true (exCut "cut-1" 12 13 accepted) shortPlaying)).
Proof.
  split; [reflexivity|]. split; [reflexivity|]. split; [reflexivity|].
  split; [reflexivity|].
  split; [apply Qlt_not_le; reflexivity|].
  split; [reflexivity|].
  apply Qlt_not_le; reflexivity.
Qed.

(** C3, amended.  With a media element and a duration that is not negative:
    a relative skip assigns [max(0, min(duration, t + seconds))], within
    [0, duration]; a scrub that changes the state assigns a time within
    [0, duration]; the forced jump of a frame assigns the end of the selected
    accepted interval as it is, a value after the position, which lies
    within [0, duration] when the position is not negative and the intervals
    end within the duration; a preview seeks to
    [max(0, c.start - 1)], which is not negative and is within the duration
    when [c.start - 1] is. *)
Theorem C3_position_assignments (cuts : list CutEvent) (s : State)
        (v : Video.t) (Hv : videoRef s = Some v) (Hd : 0 <= duration s) :
  (forall seconds,
      exists t',
        videoRef (skip seconds s) = Some (Video.seek v t')
        /\ currentTime (skip seconds s) = t'
        /\ 0 <= t' /\ t' <= duration s)
  /\ (forall clientX s',
        handleScrubMove cuts clientX s = Done s' ->
        s' = s
        \/ exists t',
             videoRef s' = Some (Video.seek v t')
             /\ currentTime s' = t'
             /\ 0 <= t' /\ t' <= duration s)
  /\ (forall c,
        isScrubbing s = false -> Video.paused v = false ->
        previewEndTimeRef s = None ->
        currentCut cuts (Video.currentTime v) = Some c ->
        videoRef (checkTime cuts s) = Some (Video.seek v (end_ c))
        /\ Video.currentTime v < end_ c
        /\ (0 <= Video.currentTime v ->
            (forall c', In c' cuts -> end_ c' <= duration s) ->
            0 <= end_ c /\ end_ c <= duration s))
  /\ (forall c ok,
        videoRef (previewCut ok c s)
          = Some (Video.play ok (Video.seek v (Qmax 0 (start c - 1))))
        /\ 0 <= Qmax 0 (start c - 1)
        /\ (start c - 1 <= duration s -> Qmax 0 (start c - 1) <= duration s)).
Proof.
  split.
  { intros seconds.
    destruct (skip_assigns seconds s v Hv) as (H1 & H2 & _).
    destruct (skipTime_range (duration s) (Video.currentTime v) seconds Hd)
      as [H0 Hle].
    exists (skipTime (duration s) (Video.currentTime v) seconds).
    split; [exact H1|]. split; [exact H2|]. split; assumption. }
  split.
  { intros clientX s' H.
    destruct (handleScrubMove_assigns _ _ _ _ H)
      as [->|(rect & v' & p & Hr & Hv' & Hpos & Hp & H1 & H2 & _)];
      [now left|right].
    rewrite Hv in Hv'. injection Hv' as <-.
    destruct (scrubPercentage_range _ _ _ Hp) as [Hp0 Hp1].
    destruct (toTime_range p (duration s) Hp0 Hp1 Hd) as [H0 Hle].
    exists (toTime p (duration s)).
    split; [exact H1|]. split; [exact H2|]. split; assumption. }
  split.
  { intros c Hs Hp Hb Hc.
    destruct (checkTime_jump cuts s v c Hs Hv Hp Hb Hc) as (H1 & _).
    unfold currentCut in Hc. apply find_some in Hc. destruct Hc as [Hin Hc].
    apply insideAccepted_spec in Hc. destruct Hc as (_ & Hs0 & He).
    split; [assumption|]. split; [assumption|].
    intros Ht Hall. split; [lra|]. apply Hall. exact Hin. }
  intros c ok.
  destruct (previewCut_sets ok c s v Hv) as (H1 & _).
  destruct (previewStart_range c (duration s)) as [H0 Hle].
  split; [assumption|]. split; [exact H0|].
  intros Hs. apply Hle; assumption.
Qed.

(** At [loadedState], rewinding by 10 seconds from the beginning stays
    within the media. *)
Lemma C3_position_assignments_witness :
  videoRef loadedState = Some (Video.mk true 0)
  /\ 0 <= duration loadedState
  /\ exists t',
       currentTime (skip (-10) loadedState) = t'
       /\ 0 <= t' /\ t' <= duration loadedState.
Proof.
  assert (Hd : 0 <= duration loadedState) by (intros H; discriminate H).
  split; [reflexivity|]. split; [exact Hd|].
  destruct (C3_position_assignments [] loadedState (Video.mk true 0)
              eq_refl Hd) as (Hskip & _).
  destruct (Hskip (-10)) as (t' & _ & Ht & H0 & H1).
  exists t'. repeat split; assumption.
Defined.

(** ** Commands before the duration is known *)






(** ** Times and fractions of the timeline *)

(** Without rounding, a time divided by the duration and multiplied by it
    again is the time, for every duration that is not zero. *)
Lemma timeFraction_toTime (time d : Q) :
  ~ d == 0 ->
  exists f, timeFraction time d = Some f /\ toTime f d == time.
Proof.
  intros Hd. unfold timeFraction, Num.div.
  destruct (Qeq_bool d 0) eqn:E.
  - apply Qeq_bool_iff in E. contradiction.
  - exists (time / d). split; [reflexivity|].
    unfold toTime. field. exact Hd.
Qed.

(** Scrubbing at the pixel at which the play-head is drawn gives the time
    of the play-head back, when that time lies within the duration. *)
Lemma scrub_at_playhead (rect : DOMRect) (time d f : Q) :
  0 < width rect -> 0 < d -> 0 <= time -> time <= d ->
  timeFraction time d = Some f ->
  exists p,
    scrubPercentage rect (left rect + f * width rect) = Some p
    /\ toTime p d == time.
Proof.
  intros Hw Hd H0 H1 Hf.
  unfold timeFraction, Num.div in Hf.
  destruct (Qeq_bool d 0) eqn:Ed; [discriminate|]. injection Hf as <-.
  assert (Hf0 : 0 <= time / d) by (apply Qle_shift_div_l; lra).
  assert (Hf1 : time / d <= 1) by (apply Qle_shift_div_r; lra).
  unfold scrubPercentage, Num.div.
  destruct (Qeq_bool (width rect) 0) eqn:Ew.
  { apply Qeq_bool_iff in Ew. lra. }
  eexists. split; [reflexivity|].
  assert (Hx : scrubX rect (left rect + time / d * width rect)
               == time / d * width rect).
  { unfold scrubX.
    assert (Ha : 0 <= time / d * width rect)
      by (apply Qmult_le_0_compat; lra).
    assert (Hb : time / d * width rect <= width rect).
    { setoid_replace (width rect) with (1 * width rect) at 2 by ring.
      apply Qmult_le_compat_r; lra. }
    assert (Hc : left rect + time / d * width rect - left rect
                 == time / d * width rect) by ring.
    apply Qle_antisym.
    - apply Q.max_lub; [lra|].
      eapply Qle_trans; [apply Q.le_min_l|]. lra.
    - eapply Qle_trans; [|apply Q.le_max_r].
      apply Q.min_glb; lra. }
  unfold toTime. rewrite Hx. field. split; lra.
Qed.

(** C8, the code at duration 0.  Before the metadata of the media is known,
    [duration] is 0: the scrub handler and the tooltip are guarded by
    [duration > 0] and compute nothing, but the play-head offset and the
    marker offsets are computed by a division by the duration, which gives
    no finite number and not the fraction 0. *)
Theorem C8_zero_duration_unguarded :
  duration unloadedState = 0
  /\ currentTime unloadedState = 0
  /\ timeFraction (currentTime unloadedState) (duration unloadedState) = None
  /\ playheadLeft unloadedState = NotFinitePct
  /\ playheadLeft unloadedState <> Pct 0
  /\ markerLeft unloadedState previewedCut = NotFinitePct
  /\ tooltipLeft (setIsScrubbing true unloadedState) = None
  /\ handleScrubMove metricsCuts 250 unloadedState = Done unloadedState
  /\ playheadLeft loadedState = Pct (0 / 100 * 100).
Proof.
  repeat (split; [reflexivity|]).
  split; [discriminate|].
  repeat (split; [reflexivity|]).
  reflexivity.
Qed.

(** ** The bound of C7 is reached *)

(** Three adjacent accepted intervals take three jumps from inside the
    first one. *)
Example adjacent_three_jumps :
  skipJumps 3
    [exCut "cut-0" 0 1 accepted; exCut "cut-1" 1 2 accepted;
     exCut "cut-2" 2 3 accepted] (1 # 2)
  = (3%nat, 3).
Proof. reflexivity. Qed.

(** * Further properties of the review view *)

(** ** What a frame leaves alone *)

(** A frame keeps the duration, the timeline, the scrubbing flag and the
    flag saved by a scrub; it never creates or drops the media element,
    never moves it backwards and never starts it; on a paused element it
    moves nothing and leaves [isPlaying] false; and the preview bound is kept
    or cleared, never set. *)
Theorem checkTime_frame (cuts : list CutEvent) (s : State) :
  duration (checkTime cuts s) = duration s
  /\ timelineRef (checkTime cuts s) = timelineRef s
  /\ isScrubbing (checkTime cuts s) = isScrubbing s
  /\ wasPlayingRef (checkTime cuts s) = wasPlayingRef s
  /\ hoverTime (checkTime cuts s) = hoverTime s
  /\ (previewEndTimeRef (checkTime cuts s) = previewEndTimeRef s
      \/ previewEndTimeRef (checkTime cuts s) = None)
  /\ match videoRef s with
     | None => videoRef (checkTime cuts s) = None
     | Some v =>
         exists v',
           videoRef (checkTime cuts s) = Some v'
           /\ Video.currentTime v <= Video.currentTime v'
           /\ (Video.paused v = true ->
               v' = v /\ (isScrubbing s = false ->
                          isPlaying (checkTime cuts s) = false))
           /\ (Video.paused v' = false -> Video.paused v = false)
     end.
Proof.
  unfold checkTime.
  destruct (isScrubbing s) eqn:Hs.
  { do 5 (split; [first [assumption|reflexivity]|]). split; [now left|].
    destruct (videoRef s) as [v|]; [|reflexivity].
    exists v. split; [reflexivity|]. split; [apply Qle_refl|].
    split; [|tauto]. intros _. split; [reflexivity|discriminate]. }
  destruct (videoRef s) as [v|] eqn:Hv.
  2:{ rewrite Hv. do 5 (split; [first [assumption|reflexivity]|]).
      split; [now left|reflexivity]. }
  destruct (Video.paused v) eqn:Hp; simpl.
  { destruct (isPlaying s) eqn:Hi; simpl;
      do 5 (split; [first [assumption|reflexivity]|]);
      (split; [now left|]);
      rewrite ?Hv; exists v; (split; [reflexivity|]);
      (split; [apply Qle_refl|]); (split; [|congruence]);
      intros _; split; auto. }
  destruct (previewEndTimeRef s) as [b|] eqn:Hb.
  - destruct (Num.geb (Video.currentTime v) b); simpl.
    + do 5 (split; [first [assumption|reflexivity]|]).
      split; [now right|].
      eexists. split; [reflexivity|]. simpl.
      split; [apply Qle_refl|]. split; congruence.
    + destruct (find (nearPreview (Video.currentTime v)) cuts); simpl;
        do 5 (split; [first [assumption|reflexivity]|]);
        (split; [now left|]);
        rewrite ?Hv; exists v; (split; [reflexivity|]);
        (split; [apply Qle_refl|]); split; congruence.
  - destruct (currentCut cuts (Video.currentTime v)) as [c|] eqn:Hc; simpl.
    + do 5 (split; [first [assumption|reflexivity]|]).
      split; [now left|].
      eexists. split; [reflexivity|]. simpl.
      unfold currentCut in Hc. apply find_some in Hc. destruct Hc as [_ Hc].
      apply insideAccepted_spec in Hc.
      split; [lra|]. split; congruence.
    + do 5 (split; [first [assumption|reflexivity]|]).
      split; [now left|].
      rewrite Hv. exists v. split; [reflexivity|].
      split; [apply Qle_refl|]. split; congruence.
Qed.

(** ** A scrub from start to end *)

Lemma handleScrubMove_keeps (cuts : list CutEvent) (clientX : Q)
      (s s' : State) :
  handleScrubMove cuts clientX s = Done s' ->
  isScrubbing s' = isScrubbing s
  /\ wasPlayingRef s' = wasPlayingRef s
  /\ previewEndTimeRef s' = previewEndTimeRef s
  /\ isPlaying s' = isPlaying s
  /\ option_map Video.paused (videoRef s')
     = option_map Video.paused (videoRef s).
Proof.
  unfold handleScrubMove.
  destruct (timelineRef s) as [rect|]; [|intros [= <-]; repeat split].
  destruct (videoRef s) as [v|] eqn:Hv;
    [|intros [= <-]; rewrite Hv; repeat split].
  destruct (Num.gtb (duration s) 0);
    [|intros [= <-]; rewrite Hv; repeat split].
  destruct (scrubPercentage rect clientX); [|discriminate].
  intros [= <-]. simpl. repeat split.
Qed.

Lemma frames_scrubbing (n : nat) (cuts : list CutEvent) (s : State) :
  isScrubbing s = true -> frames n cuts s = s.
Proof.
  intros Hs. induction n as [|n IH]; simpl; [reflexivity|].
  unfold checkTime. rewrite Hs. exact IH.
Qed.

(** A scrub start that does not throw puts the component into scrubbing,
    with the media element paused and the preview bound cleared; the frames
    that run during the scrub change nothing, so the position chosen by the
    pointer stays; and the scrub end, when [play] succeeds, leaves the media
    element playing exactly when it was playing before the scrub, at the
    position the scrub chose. *)
Theorem scrub_cycle_restores_playback (cuts : list CutEvent) (clientX : Q)
        (n : nat) (s s1 : State) (rect : DOMRect) (v : Video.t)
        (Hr : timelineRef s = Some rect) (Hv : videoRef s = Some v)
        (Hstart : handleScrubStart cuts clientX s = Done s1) :
  isScrubbing s1 = true
  /\ previewEndTimeRef s1 = None
  /\ option_map Video.paused (videoRef s1) = Some true
  /\ frames n cuts s1 = s1
  /\ isScrubbing (handleScrubEnd true s1) = false
  /\ wasPlayingRef (handleScrubEnd true s1) = false
  /\ option_map Video.paused (videoRef (handleScrubEnd true s1))
     = Some (Video.paused v)
  /\ option_map Video.currentTime (videoRef (handleScrubEnd true s1))
     = option_map Video.currentTime (videoRef s1)
  /\ currentTime (handleScrubEnd true s1) = currentTime s1.
Proof.
  unfold handleScrubStart in Hstart. rewrite Hr, Hv in Hstart.
  apply handleScrubMove_keeps in Hstart.
  destruct Hstart as (H1 & H2 & H3 & _ & H5).
  assert (Hscr : isScrubbing s1 = true).
  { rewrite H1. destruct (Video.paused v); reflexivity. }
  assert (Hbound : previewEndTimeRef s1 = None).
  { rewrite H3. destruct (Video.paused v); reflexivity. }
  assert (Hpaused : option_map Video.paused (videoRef s1) = Some true).
  { rewrite H5. destruct (Video.paused v) eqn:Hp; simpl; rewrite ?Hv;
      simpl; congruence. }
  assert (Hwas : wasPlayingRef s1 = negb (Video.paused v)).
  { rewrite H2. destruct (Video.paused v); reflexivity. }
  split; [exact Hscr|]. split; [exact Hbound|]. split; [exact Hpaused|].
  split; [apply frames_scrubbing; exact Hscr|].
  unfold handleScrubEnd. rewrite Hscr. simpl.
  destruct (videoRef s1) as [v1|] eqn:Hv1; [|discriminate Hpaused].
  simpl in Hpaused. injection Hpaused as Hp1.
  rewrite Hwas.
  destruct (Video.paused v) eqn:Hp; simpl; rewrite ?Hv1; simpl;
    repeat split; congruence.
Qed.

(** At [loadedState], a press at pixel 250 starts a scrub. *)
Lemma scrub_cycle_restores_playback_witness :
  timelineRef loadedState = Some (mkRect 0 500)
  /\ videoRef loadedState = Some (Video.mk true 0)
  /\ exists s1,
       handleScrubStart metricsCuts 250 loadedState = Done s1
       /\ option_map Video.paused (videoRef (handleScrubEnd true s1))
          = Some true.
Proof.
  split; [reflexivity|]. split; [reflexivity|].
  eexists. split; [reflexivity|].
  refine (proj1 (proj2 (proj2 (proj2 (proj2 (proj2 (proj2
    (scrub_cycle_restores_playback metricsCuts 250 0 loadedState _
       (mkRect 0 500) (Video.mk true 0) eq_refl eq_refl eq_refl)))))))).
Defined.

(** ** A preview whose playback is refused *)

Lemma checkTime_paused (cuts : list CutEvent) (s : State) (v : Video.t) :
  videoRef s = Some v -> Video.paused v = true ->
  videoRef (checkTime cuts s) = Some v
  /\ previewEndTimeRef (checkTime cuts s) = previewEndTimeRef s.
Proof.
  intros Hv Hp. unfold checkTime.
  destruct (isScrubbing s); [now split|].
  rewrite Hv, Hp. simpl.
  destruct (isPlaying s); simpl; now split.
Qed.

Lemma frames_paused (n : nat) (cuts : list CutEvent) :
  forall (s : State) (v : Video.t),
    videoRef s = Some v -> Video.paused v = true ->
    videoRef (frames n cuts s) = Some v
    /\ previewEndTimeRef (frames n cuts s) = previewEndTimeRef s.
Proof.
  induction n as [|n IH]; intros s v Hv Hp; simpl; [now split|].
  destruct (checkTime_paused cuts s v Hv Hp) as [H1 H2].
  destruct (IH (checkTime cuts s) v H1 Hp) as [H3 H4].
  split; congruence.
Qed.

(** When [play] is refused on a paused media element, a preview command
    still seeks and sets the preview bound; no later frame clears the bound
    while the element stays paused, and once the element plays again the
    frames treat it as a preview: they do not skip accepted intervals. *)
Theorem preview_refused_keeps_bound (cuts : list CutEvent) (c : CutEvent)
        (n : nat) (s : State) (v : Video.t)
        (Hv : videoRef s = Some v) (Hp : Video.paused v = true) :
  videoRef (frames n cuts (previewCut false c s))
    = Some (Video.mk true (Qmax 0 (start c - 1)))
  /\ previewEndTimeRef (frames n cuts (previewCut false c s))
     = Some (Qmin (duration s) (end_ c + 1))
  /\ forall t,
       option_map Video.currentTime
         (videoRef (checkTime cuts
            (playingAt t (frames n cuts (previewCut false c s)))))
       = Some t.
Proof.
  destruct (previewCut_sets false c s v Hv) as (H1 & H2 & _).
  simpl in H1. unfold Video.seek in H1. rewrite Hp in H1.
  destruct (frames_paused n cuts _ _ H1 eq_refl) as [H3 H4].
  split; [exact H3|]. split; [congruence|].
  intros t.
  rewrite (checkTime_preview_no_seek cuts _ (Qmin (duration s) (end_ c + 1))).
  - reflexivity.
  - unfold playingAt. simpl. congruence.
Qed.

(** At [loadedState] the media element is paused; three frames after a
    refused preview of [previewedCut] the bound 13 is still set. *)
Lemma preview_refused_keeps_bound_witness :
  videoRef loadedState = Some (Video.mk true 0)
  /\ Video.paused (Video.mk true 0) = true
  /\ previewEndTimeRef
       (frames 3 [previewedCut] (previewCut false previewedCut loadedState))
     = Some 13.
Proof.
  split; [reflexivity|]. split; [reflexivity|].
  exact (proj1 (proj2 (preview_refused_keeps_bound [previewedCut]
                         previewedCut 3 loadedState (Video.mk true 0)
                         eq_refl eq_refl))).
Defined.

(** ** Formatting of times *)

Lemma Qfloor_unique (x : Q) (z : Z) :
  inject_Z z <= x -> x < inject_Z (z + 1) -> Qfloor x = z.
Proof.
  intros Hle Hlt.
  pose proof (Qfloor_le x) as H1. pose proof (Qlt_floor x) as H2.
  assert (Ha : (Qfloor x < z + 1)%Z).
  { rewrite Zlt_Qlt. eapply Qle_lt_trans; eassumption. }
  assert (Hb : (z < Qfloor x + 1)%Z).
  { rewrite Zlt_Qlt. eapply Qle_lt_trans; eassumption. }
  lia.
Qed.

Lemma Qfloor_sub_Z (x : Q) (k : Z) :
  Qfloor (x - inject_Z k) = (Qfloor x - k)%Z.
Proof.
  pose proof (Qfloor_le x) as H1. pose proof (Qlt_floor x) as H2.
  apply Qfloor_unique.
  - unfold Z.sub. rewrite inject_Z_plus, inject_Z_opp. lra.
  - replace (Qfloor x - k + 1)%Z with ((Qfloor x + 1) + - k)%Z by lia.
    rewrite inject_Z_plus, inject_Z_opp. lra.
Qed.

Lemma Qfloor_scaled (x : Q) (k : Z) :
  (0 < k)%Z ->
  Qfloor (x / inject_Z k) = (Qfloor x / k)%Z.
Proof.
  intros Hk.
  pose proof (Qfloor_le x) as H1. pose proof (Qlt_floor x) as H2.
  assert (Hk' : 0 < inject_Z k)
    by (change 0 with (inject_Z 0); rewrite <- Zlt_Qlt; exact Hk).
  pose proof (Z.div_mod (Qfloor x) k ltac:(lia)) as Hdm.
  pose proof (Z.mod_pos_bound (Qfloor x) k Hk) as Hm.
  set (q := (Qfloor x / k)%Z) in *. set (r := (Qfloor x mod k)%Z) in *.
  assert (Hlow : inject_Z (k * q) <= inject_Z (Qfloor x))
    by (rewrite <- Zle_Qle; lia).
  assert (Hup : inject_Z (Qfloor x + 1) <= inject_Z (k * (q + 1)))
    by (rewrite <- Zle_Qle; lia).
  rewrite inject_Z_mult in Hlow, Hup.
  apply Qfloor_unique.
  - apply Qle_shift_div_l; [exact Hk'|]. lra.
  - apply Qlt_shift_div_r; [exact Hk'|]. lra.
Qed.

Lemma trunc_nonneg (q : Q) : 0 <= q -> Fmt.trunc q = Qfloor q.
Proof.
  intros H. unfold Fmt.trunc.
  apply Qle_bool_iff in H. now rewrite H.
Qed.

Lemma mins_floor (seconds : Q) :
  Fmt.mins seconds = (Qfloor seconds / 60)%Z.
Proof.
  unfold Fmt.mins. change 60 with (inject_Z 60).
  apply Qfloor_scaled. lia.
Qed.

Lemma secs_floor (seconds : Q) :
  0 <= seconds -> Fmt.secs seconds = (Qfloor seconds mod 60)%Z.
Proof.
  intros H. unfold Fmt.secs, Fmt.rem.
  rewrite trunc_nonneg by (apply Qle_shift_div_l; lra).
  fold (Fmt.mins seconds). rewrite mins_floor.
  assert (E : seconds - 60 * inject_Z (Qfloor seconds / 60)
              == seconds - inject_Z (60 * (Qfloor seconds / 60))).
  { rewrite inject_Z_mult. reflexivity. }
  rewrite (Qfloor_comp _ _ E), Qfloor_sub_Z.
  rewrite Z.mod_eq by lia. reflexivity.
Qed.


Lemma padStart_digits (w : nat) (bound : nat) :
  forallb
    (fun n => Nat.eqb (String.length
                         (Fmt.padStart w (Fmt.toString (Z.of_nat n)))) w)
    (seq 0 bound) = true ->
  forall z, (0 <= z < Z.of_nat bound)%Z ->
  String.length (Fmt.padStart w (Fmt.toString z)) = w.
Proof.
  intros Hall z Hz.
  rewrite forallb_forall in Hall.
  specialize (Hall (Z.to_nat z)).
  rewrite Z2Nat.id in Hall by lia.
  apply Nat.eqb_eq. apply Hall.
  apply in_seq. lia.
Qed.

(** For a time that is not negative, [formatTime] prints the whole seconds
    split into minutes and seconds: the minutes are the floor of the time
    divided by 60, and the seconds are the floor modulo 60, always written
    with two characters. *)
Theorem formatTime_fields (seconds : Q) (H : 0 <= seconds) :
  formatTime seconds
  = (Fmt.toString (Qfloor seconds / 60) ++ ":"
     ++ Fmt.padStart 2 (Fmt.toString (Qfloor seconds mod 60)))%string
  /\ String.length (Fmt.padStart 2 (Fmt.toString (Qfloor seconds mod 60)))
     = 2%nat
  /\ (0 <= Qfloor seconds / 60)%Z.
Proof.
  unfold formatTime. rewrite mins_floor, (secs_floor _ H).
  split; [reflexivity|].
  assert (H0 : (0 <= Qfloor seconds)%Z).
  { change 0%Z with (Qfloor 0). apply Qfloor_resp_le. exact H. }
  split.
  - apply (padStart_digits 2 60); [vm_compute; reflexivity|].
    apply Z.mod_pos_bound. lia.
  - apply Z.div_pos; lia.
Qed.

(** One minute and a quarter. *)
Lemma formatTime_fields_witness :
  0 <= 75 + (1 # 2) /\ formatTime (75 + (1 # 2)) = "1:15"%string.
Proof.
  assert (H : 0 <= 75 + (1 # 2)) by (intros E; discriminate E).
  split; [exact H|].
  rewrite (proj1 (formatTime_fields _ H)). reflexivity.
Defined.



(** * Further properties of cuts and metrics *)

(** ** Toggles compose *)

Lemma toggle_fixes (i : string) (s : Status) (cuts : list CutEvent) :
  toggleCutStatus i s cuts = cuts <->
  (forall c, In c cuts -> id c = i -> status c = s).
Proof.
  unfold toggleCutStatus. induction cuts as [|a l IH]; simpl.
  - split; [intros _ c []|reflexivity].
  - split.
    + intros [= Ha Hl] c [Hc|Hc] Hi.
      * subst c. apply String.eqb_eq in Hi. rewrite Hi in Ha.
        rewrite <- Ha. reflexivity.
      * exact (proj1 IH Hl c Hc Hi).
    + intros H. f_equal.
      * destruct (String.eqb_spec (id a) i) as [E|E]; [|reflexivity].
        specialize (H a (or_introl eq_refl) E).
        destruct a; simpl in *. now subst.
      * apply IH. intros c Hc. apply H. now right.
Qed.

(** Toggling a cut twice keeps the last status; toggles of two different
    ids can be made in either order; and a toggle changes nothing exactly
    when every cut with that id already has the status, in particular when
    no cut has the id. *)
Theorem toggleCutStatus_composes (cuts : list CutEvent) (i j : string)
        (s1 s2 : Status) :
  toggleCutStatus i s2 (toggleCutStatus i s1 cuts) = toggleCutStatus i s2 cuts
  /\ (i <> j ->
      toggleCutStatus i s1 (toggleCutStatus j s2 cuts)
      = toggleCutStatus j s2 (toggleCutStatus i s1 cuts))
  /\ (toggleCutStatus i s1 cuts = cuts <->
      forall c, In c cuts -> id c = i -> status c = s1)
  /\ ((forall c, In c cuts -> id c <> i) -> toggleCutStatus i s1 cuts = cuts).
Proof.
  split; [|split; [|split]].
  - unfold toggleCutStatus. rewrite map_map. apply map_ext. intros c.
    destruct (String.eqb (id c) i) eqn:E; simpl; rewrite E; reflexivity.
  - intros Hij. unfold toggleCutStatus. rewrite !map_map. apply map_ext.
    intros c.
    destruct (String.eqb (id c) i) eqn:Ei;
      destruct (String.eqb (id c) j) eqn:Ej; simpl; rewrite ?Ei, ?Ej;
      try reflexivity.
    apply String.eqb_eq in Ei. apply String.eqb_eq in Ej. congruence.
  - apply toggle_fixes.
  - intros H. apply toggle_fixes. intros c Hc Hi.
    exfalso. exact (H c Hc Hi).
Qed.

(** ** A toggle and the metrics *)

Lemma spec_toggle_other (i : string) (s : Status) (l : list CutEvent) :
  ~ In i (map id l) ->
  spec_cutsCount (toggleCutStatus i s l) = spec_cutsCount l
  /\ spec_timeSaved (toggleCutStatus i s l) == spec_timeSaved l.
Proof.
  intros H.
  assert (E : toggleCutStatus i s l = l).
  { apply toggle_fixes. intros c Hc Hi. exfalso. apply H.
    rewrite <- Hi. now apply in_map. }
  rewrite E. split; reflexivity.
Qed.

Lemma spec_toggle (s : Status) (cuts : list CutEvent) (c : CutEvent) :
  NoDup (map id cuts) -> In c cuts ->
  (spec_cutsCount (toggleCutStatus (id c) s cuts)
   + spec_cutsCount [c]
   = spec_cutsCount cuts + spec_cutsCount [withStatus c s])%nat
  /\ spec_timeSaved (toggleCutStatus (id c) s cuts) + spec_timeSaved [c]
     == spec_timeSaved cuts + spec_timeSaved [withStatus c s].
Proof.
  induction cuts as [|a l IH]; intros Hnd Hin; [contradiction|].
  simpl in Hnd. inversion Hnd as [|? ? Hnotin Hnd']; subst.
  destruct Hin as [->|Hin].
  - destruct (spec_toggle_other (id c) s l Hnotin) as [Hc Ht].
    change (toggleCutStatus (id c) s (c :: l))
      with ((if String.eqb (id c) (id c) then withStatus c s else c)
              :: toggleCutStatus (id c) s l).
    rewrite String.eqb_refl.
    cbn [spec_cutsCount spec_timeSaved withStatus status start end_].
    destruct s, (status c); split; try lia; lra.
  - destruct (IH Hnd' Hin) as [Hc Ht].
    assert (Hne : String.eqb (id a) (id c) = false).
    { apply String.eqb_neq. intros E. apply Hnotin. rewrite E.
      now apply in_map. }
    change (toggleCutStatus (id c) s (a :: l))
      with ((if String.eqb (id a) (id c) then withStatus a s else a)
              :: toggleCutStatus (id c) s l).
    rewrite Hne.
    cbn [spec_cutsCount spec_timeSaved withStatus status start end_] in *.
    destruct (status a); split; try lia; lra.
Qed.

(** When the ids are distinct, rejecting an accepted cut lowers the count
    of cuts by one and the time saved by the length of the cut, and raises
    the final duration by it; accepting a rejected cut does the converse. *)
Theorem toggle_updates_metrics (cuts : list CutEvent) (c : CutEvent) (d : Q)
        (Hnodup : NoDup (map id cuts)) (Hin : In c cuts) :
  (status c = accepted ->
   (cutsCount (calculateMetrics (toggleCutStatus (id c) rejected cuts) d) + 1
    = cutsCount (calculateMetrics cuts d))%nat
   /\ timeSaved (calculateMetrics (toggleCutStatus (id c) rejected cuts) d)
      + (end_ c - start c)
      == timeSaved (calculateMetrics cuts d)
   /\ finalDuration (calculateMetrics (toggleCutStatus (id c) rejected cuts) d)
      == finalDuration (calculateMetrics cuts d) + (end_ c - start c))
  /\ (status c = rejected ->
      (cutsCount (calculateMetrics (toggleCutStatus (id c) accepted cuts) d)
       = cutsCount (calculateMetrics cuts d) + 1)%nat
      /\ timeSaved (calculateMetrics (toggleCutStatus (id c) accepted cuts) d)
         == timeSaved (calculateMetrics cuts d) + (end_ c - start c)
      /\ finalDuration
           (calculateMetrics (toggleCutStatus (id c) accepted cuts) d)
         + (end_ c - start c)
         == finalDuration (calculateMetrics cuts d)).
Proof.
  split; intros Hs.
  - destruct (spec_toggle rejected cuts c Hnodup Hin) as [Hc Ht].
    cbn [spec_cutsCount spec_timeSaved withStatus status start end_]
      in Hc, Ht.
    rewrite Hs in Hc, Ht.
    cbn [calculateMetrics cutsCount timeSaved finalDuration].
    rewrite !accepted_count.
    pose proof (accepted_time_sum cuts) as E1.
    pose proof (accepted_time_sum (toggleCutStatus (id c) rejected cuts))
      as E2.
    split; [lia|]. split; lra.
  - destruct (spec_toggle accepted cuts c Hnodup Hin) as [Hc Ht].
    cbn [spec_cutsCount spec_timeSaved withStatus status start end_]
      in Hc, Ht.
    rewrite Hs in Hc, Ht.
    cbn [calculateMetrics cutsCount timeSaved finalDuration].
    rewrite !accepted_count.
    pose proof (accepted_time_sum cuts) as E1.
    pose proof (accepted_time_sum (toggleCutStatus (id c) accepted cuts))
      as E2.
    split; [lia|]. split; lra.
Qed.

(** In [metricsCuts] the ids are distinct; rejecting the first cut leaves
    one accepted cut. *)
Lemma toggle_updates_metrics_witness :
  NoDup (map id metricsCuts)
  /\ In (exCut "cut-0" 2 4 accepted) metricsCuts
  /\ (cutsCount (calculateMetrics
                   (toggleCutStatus "cut-0" rejected metricsCuts) 60) + 1
      = cutsCount (calculateMetrics metricsCuts 60))%nat.
Proof.
  assert (Hnd : NoDup (map id metricsCuts)).
  { simpl. repeat constructor; simpl; intuition discriminate. }
  assert (Hin : In (exCut "cut-0" 2 4 accepted) metricsCuts)
    by (left; reflexivity).
  split; [exact Hnd|]. split; [exact Hin|].
  exact (proj1 (proj1 (toggle_updates_metrics metricsCuts _ 60 Hnd Hin)
                  eq_refl)).
Defined.

(** ** Bounds of the metrics *)

Lemma spec_timeSaved_accepted (cuts : list CutEvent) :
  spec_timeSaved (filter isAccepted cuts) == spec_timeSaved cuts.
Proof.
  induction cuts as [|c l IH]; simpl; [reflexivity|].
  unfold isAccepted at 1.
  destruct (status c) eqn:E; simpl; [rewrite E, IH; reflexivity|exact IH].
Qed.

Lemma spec_timeSaved_nonneg (cuts : list CutEvent) :
  (forall c, In c cuts -> status c = accepted -> start c <= end_ c) ->
  0 <= spec_timeSaved cuts.
Proof.
  induction cuts as [|c l IH]; intros H; simpl; [lra|].
  assert (IH' : 0 <= spec_timeSaved l).
  { apply IH. intros c' Hc'. apply H. now right. }
  destruct (status c) eqn:E; [|exact IH'].
  pose proof (H c (or_introl eq_refl) E). lra.
Qed.

Lemma nonOverlapping_sum (d : Q) (l : list CutEvent) :
  Forall (fun c => start c <= end_ c /\ end_ c <= d) l ->
  nonOverlapping l ->
  forall lo, lo <= d ->
    (forall b, hd_error l = Some b -> lo <= start b) ->
    spec_timeSaved l <= d - lo.
Proof.
  intros Hall. induction Hall as [|a r [Ha1 Ha2] Hr IH];
    intros Hsorted lo Hlo Hhd; simpl; [lra|].
  inversion Hsorted as [|? ? Hsr Hrel]; subst.
  pose proof (Hhd a eq_refl) as Hlo_a.
  assert (IH' : spec_timeSaved r <= d - end_ a).
  { apply IH; [exact Hsr|exact Ha2|].
    intros b Hb. destruct r as [|b' r']; [discriminate|].
    injection Hb as <-. inversion Hrel; subst. assumption. }
  destruct (status a); lra.
Qed.

(** When every accepted cut has its start before its end, the time saved
    is not negative and the final duration is at most the original one.
    When moreover the accepted cuts lie within the media, in order and
    without overlap, the time saved is at most the original duration and
    the final duration is not negative. *)
Theorem metrics_bounds (cuts : list CutEvent) (d : Q)
        (Hlen : forall c, In c cuts -> status c = accepted ->
                          start c <= end_ c) :
  0 <= timeSaved (calculateMetrics cuts d)
  /\ finalDuration (calculateMetrics cuts d) <= d
  /\ (0 <= d ->
      (forall c, In c cuts -> status c = accepted ->
                 0 <= start c /\ end_ c <= d) ->
      nonOverlapping (filter isAccepted cuts) ->
      timeSaved (calculateMetrics cuts d) <= d
      /\ 0 <= finalDuration (calculateMetrics cuts d)).
Proof.
  cbn [calculateMetrics cutsCount timeSaved finalDuration].
  pose proof (accepted_time_sum cuts) as E.
  pose proof (spec_timeSaved_nonneg cuts Hlen) as H0.
  split; [lra|]. split; [lra|].
  intros Hd Hin Hno.
  assert (Hsum : spec_timeSaved (filter isAccepted cuts) <= d - 0).
  { apply nonOverlapping_sum; [|exact Hno|exact Hd|].
    - apply Forall_forall. intros c Hc. apply filter_In in Hc.
      destruct Hc as [Hc Ha]. unfold isAccepted in Ha.
      apply Status_eqb_spec in Ha.
      split; [now apply Hlen|now apply Hin].
    - intros b Hb.
      assert (Hbin : In b (filter isAccepted cuts)).
      { destruct (filter isAccepted cuts); [discriminate|].
        injection Hb as <-. now left. }
      apply filter_In in Hbin. destruct Hbin as [Hbin Ha].
      unfold isAccepted in Ha. apply Status_eqb_spec in Ha.
      now apply Hin. }
  pose proof (spec_timeSaved_accepted cuts) as E2. split; lra.
Qed.

(** The cuts of [metricsCuts] are well formed. *)
Lemma metrics_bounds_witness :
  (forall c, In c metricsCuts -> status c = accepted -> start c <= end_ c)
  /\ 0 <= timeSaved (calculateMetrics metricsCuts 60)
  /\ finalDuration (calculateMetrics metricsCuts 60) <= 60.
Proof.
  assert (H : forall c, In c metricsCuts -> status c = accepted ->
                        start c <= end_ c).
  { intros c [<-|[<-|[<-|[]]]] _; intros E; discriminate E. }
  split; [exact H|].
  destruct (metrics_bounds metricsCuts 60 H) as (H1 & H2 & _).
  split; assumption.
Defined.

(** ** Cuts in the order of their starts *)

Lemma sortedByStart_starts (cuts : list CutEvent) :
  sortedByStart cuts <-> StronglySorted Qle (map start cuts).
Proof.
  unfold sortedByStart. induction cuts as [|a l IH]; simpl.
  - split; constructor.
  - split; intros H; inversion H as [|? ? Hl Hall]; subst; constructor.
    + now apply IH.
    + apply Forall_forall. intros x Hx. apply in_map_iff in Hx.
      destruct Hx as (b & <- & Hb).
      rewrite Forall_forall in Hall. now apply Hall.
    + now apply IH.
    + apply Forall_forall. intros b Hb.
      rewrite Forall_forall in Hall. apply Hall. now apply in_map.
Qed.

Lemma toggleCutStatus_starts (i : string) (s : Status) (cuts : list CutEvent) :
  map start (toggleCutStatus i s cuts) = map start cuts.
Proof.
  unfold toggleCutStatus. rewrite map_map. apply map_ext.
  intros c. destruct (String.eqb (id c) i); reflexivity.
Qed.

Lemma sortedByStart_filter (f : CutEvent -> bool) (cuts : list CutEvent) :
  sortedByStart cuts -> sortedByStart (filter f cuts).
Proof.
  unfold sortedByStart. induction 1 as [|a l Hl IH Hall]; simpl.
  - constructor.
  - destruct (f a); [|exact IH].
    constructor; [exact IH|].
    apply Forall_forall. intros b Hb. apply filter_In in Hb.
    rewrite Forall_forall in Hall. now apply Hall.
Qed.

Lemma sortedByStart_app_tail (l1 l2 : list CutEvent) (c : CutEvent) :
  sortedByStart (l1 ++ c :: l2) ->
  forall c', In c' l2 -> start c <= start c'.
Proof.
  unfold sortedByStart. induction l1 as [|a l1 IH]; simpl; intros H.
  - inversion H as [|? ? _ Hall]; subst.
    rewrite Forall_forall in Hall. exact Hall.
  - inversion H; subst. now apply IH.
Qed.

(** A list of cuts in the order of their starts stays in that order under
    a toggle, and on such a list the skip decision selects, among the
    accepted intervals that contain the position, one with the earliest
    start. *)
Theorem sorted_cuts_select_earliest (cuts : list CutEvent) (i : string)
        (s : Status) (t : Q) (Hs : sortedByStart cuts) :
  sortedByStart (toggleCutStatus i s cuts)
  /\ forall c,
       currentCut cuts t = Some c ->
       forall c', In c' cuts -> status c' = accepted ->
                  start c' <= t -> t < end_ c' ->
                  start c <= start c'.
Proof.
  split.
  - apply sortedByStart_starts. rewrite toggleCutStatus_starts.
    now apply sortedByStart_starts.
  - intros c Hc c' Hin Ha Hs' He.
    unfold currentCut in Hc.
    destruct (find_first _ _ _ Hc) as (l1 & l2 & Hl & _ & Hl1).
    assert (Hm : insideAccepted t c' = true)
      by (apply insideAccepted_spec; tauto).
    rewrite Hl in Hin. apply in_app_or in Hin.
    destruct Hin as [Hin|[->|Hin]].
    + rewrite (Hl1 c' Hin) in Hm. discriminate.
    + apply Qle_refl.
    + rewrite Hl in Hs. exact (sortedByStart_app_tail l1 l2 c Hs c' Hin).
Qed.

(** [overlapCuts] is in the order of its starts. *)
Lemma sorted_cuts_select_earliest_witness :
  sortedByStart overlapCuts
  /\ sortedByStart (toggleCutStatus "cut-1" rejected overlapCuts).
Proof.
  assert (H : sortedByStart overlapCuts).
  { unfold sortedByStart, overlapCuts.
    repeat constructor; intros E; discriminate E. }
  split; [exact H|].
  exact (proj1 (sorted_cuts_select_earliest overlapCuts "cut-1" rejected 7 H)).
Defined.

(** * Properties of the application root and the upload view *)

(** ** The cuts that pass the configuration *)

Lemma CutType_eqb_spec (a b : CutType) : CutType_eqb a b = true <-> a = b.
Proof. destruct a, b; simpl; split; congruence. Qed.

Lemma keepCut_spec (config : VideoConfig) (c : CutEvent) :
  keepCut config c = true <->
  flagOf config (type c) = true
  /\ (type c = silence -> silenceThreshold config <= end_ c - start c).
Proof.
  unfold keepCut, flagOf.
  destruct (type c); simpl.
  - destruct (removeCliches config); simpl; split;
      [intros _; split; [reflexivity|discriminate]|reflexivity
      |discriminate|intros [H _]; discriminate].
  - destruct (removeFillers config); simpl; split;
      [intros _; split; [reflexivity|discriminate]|reflexivity
      |discriminate|intros [H _]; discriminate].
  - destruct (removeSilence config); simpl.
    + destruct (Num.ltb (end_ c - start c) (silenceThreshold config)) eqn:E.
      * apply NumFacts.ltb_spec in E. split; [discriminate|].
        intros [_ H]. specialize (H eq_refl). lra.
      * apply NumFacts.ltb_false in E. split; [|reflexivity].
        intros _. split; [reflexivity|intros _; exact E].
    + split; [discriminate|intros [H _]; discriminate].
  - destruct (removeRepetition config); simpl; split;
      [intros _; split; [reflexivity|discriminate]|reflexivity
      |discriminate|intros [H _]; discriminate].
  - destruct (removeStuttering config); simpl; split;
      [intros _; split; [reflexivity|discriminate]|reflexivity
      |discriminate|intros [H _]; discriminate].
Qed.


(** ** Saved phrase lists *)

Lemma find_app_fresh {A : Type} (f : A -> bool) (l : list A) (x : A) :
  (forall y, In y l -> f y = false) -> f x = true ->
  find f (l ++ [x]) = Some x.
Proof.
  intros Hl Hx. induction l as [|a l IH]; simpl.
  - now rewrite Hx.
  - rewrite (Hl a (or_introl eq_refl)). apply IH.
    intros y Hy. apply Hl. now right.
Qed.

Lemma filter_app_fresh {A : Type} (f : A -> bool) (l : list A) (x : A) :
  (forall y, In y l -> f y = true) -> f x = false ->
  filter f (l ++ [x]) = l.
Proof.
  intros Hl Hx. induction l as [|a l IH]; simpl.
  - now rewrite Hx.
  - rewrite (Hl a (or_introl eq_refl)). f_equal. apply IH.
    intros y Hy. apply Hl. now right.
Qed.

(** Saving the current phrases under a name that is not blank, at a time
    whose id no saved list has yet, appends one list that holds the trimmed
    name and the phrases and leaves the configuration alone; loading the
    list by its id gives the phrases back, whatever the phrases have become
    meanwhile, and deleting it by its id restores the lists as they were. *)
Theorem saved_list_round_trip (now : Z) (s : Upload.State)
        (Hname : Upload.truthy (Upload.trim (Upload.newListName s)) = true)
        (Hphrases : customPhrases (Upload.config s) <> [])
        (Hfresh : forall l, In l (Upload.savedLists s) ->
                            PhraseList.id l <> Fmt.toString now) :
  Upload.savedLists (Upload.saveCurrentList now s)
  = Upload.savedLists s
    ++ [PhraseList.mk (Fmt.toString now)
          (Upload.trim (Upload.newListName s))
          (customPhrases (Upload.config s))]
  /\ Upload.config (Upload.saveCurrentList now s) = Upload.config s
  /\ (forall s2,
        Upload.savedLists s2
        = Upload.savedLists (Upload.saveCurrentList now s) ->
        customPhrases
          (Upload.config (Upload.handleLoadList (Fmt.toString now) s2))
        = customPhrases (Upload.config s))
  /\ handleDeleteList (Fmt.toString now)
       (Upload.savedLists (Upload.saveCurrentList now s))
     = Upload.savedLists s.
Proof.
  assert (Hlen : Nat.ltb 0 (List.length (customPhrases (Upload.config s)))
                 = true).
  { apply Nat.ltb_lt.
    destruct (customPhrases (Upload.config s)); [congruence|simpl; lia]. }
  assert (Hsave : Upload.saveCurrentList now s
                  = Upload.mk (Upload.config s)
                      (handleSaveList now (Upload.trim (Upload.newListName s))
                         (customPhrases (Upload.config s))
                         (Upload.savedLists s))
                      (Upload.newPhrase s) (Upload.selectedListId s) false
                      EmptyString).
  { unfold Upload.saveCurrentList. now rewrite Hname, Hlen. }
  rewrite Hsave. cbn [Upload.savedLists Upload.config]. unfold handleSaveList.
  split; [reflexivity|]. split; [reflexivity|]. split.
  - intros s2 Hs2. unfold Upload.handleLoadList.
    cbn [Upload.savedLists]. rewrite Hs2.
    rewrite find_app_fresh.
    + reflexivity.
    + intros l Hl. apply String.eqb_neq. now apply Hfresh.
    + cbn [PhraseList.id]. apply String.eqb_refl.
  - unfold handleDeleteList. apply filter_app_fresh.
    + intros l Hl. apply negb_true_iff, String.eqb_neq. now apply Hfresh.
    + cbn [PhraseList.id]. now rewrite String.eqb_refl.
Qed.

(** The view with one phrase typed into the list and a name typed for it. *)
Lemma saved_list_round_trip_witness :
  let s := Upload.setNewListName " Sermon "
             (Upload.addCustomPhrase
                (Upload.setNewPhrase "Amen" Upload.initial)) in
  Upload.truthy (Upload.trim (Upload.newListName s)) = true
  /\ customPhrases (Upload.config s) <> []
  /\ (forall l, In l (Upload.savedLists s) ->
                PhraseList.id l <> Fmt.toString 1700000000000)
  /\ handleDeleteList (Fmt.toString 1700000000000)
       (Upload.savedLists (Upload.saveCurrentList 1700000000000 s))
     = Upload.savedLists s.
Proof.
  intros s.
  assert (H1 : Upload.truthy (Upload.trim (Upload.newListName s)) = true)
    by reflexivity.
  assert (H2 : customPhrases (Upload.config s) <> []) by discriminate.
  assert (H3 : forall l, In l (Upload.savedLists s) ->
                         PhraseList.id l <> Fmt.toString 1700000000000).
  { intros l [<-|[<-|[<-|[]]]]; discriminate. }
  split; [exact H1|]. split; [exact H2|]. split; [exact H3|].
  exact (proj2 (proj2 (proj2
           (saved_list_round_trip 1700000000000 s H1 H2 H3)))).
Defined.

(** ** Removing a phrase by its index *)

Lemma removeIndex_below {A : Type} (l : list A) :
  forall k j, (j < k)%nat ->
    map snd
      (filter (fun p => negb (Nat.eqb (fst p) j))
         (combine (seq k (List.length l)) l))
    = l.
Proof.
  induction l as [|a r IH]; intros k j Hj; [reflexivity|].
  cbn [List.length seq combine filter fst].
  destruct (Nat.eqb_spec k j) as [E|E]; [lia|].
  cbn [negb map snd]. f_equal. apply IH. lia.
Qed.

Lemma removeIndex_shift {A : Type} (l : list A) :
  forall k index,
    map snd
      (filter (fun p => negb (Nat.eqb (fst p) (k + index)))
         (combine (seq k (List.length l)) l))
    = firstn index l ++ skipn (S index) l.
Proof.
  induction l as [|a r IH]; intros k index.
  - now destruct index.
  - cbn [List.length seq combine filter fst].
    destruct (Nat.eqb_spec k (k + index)) as [E|E]; cbn [negb].
    + assert (index = 0)%nat by lia. subst index.
      rewrite Nat.add_0_r. cbn [firstn skipn app].
      apply removeIndex_below. lia.
    + destruct index as [|index]; [lia|].
      cbn [map snd firstn skipn app]. f_equal.
      replace (k + S index)%nat with (S k + index)%nat by lia.
      apply IH.
Qed.

(** [removeCustomPhrase] removes exactly the phrase at the index and keeps
    the others in their order; an index beyond the list changes nothing, and
    the rest of the configuration and of the view is left alone. *)
Theorem removeCustomPhrase_index (index : nat) (s : Upload.State) :
  customPhrases (Upload.config (Upload.removeCustomPhrase index s))
  = firstn index (customPhrases (Upload.config s))
    ++ skipn (S index) (customPhrases (Upload.config s))
  /\ ((List.length (customPhrases (Upload.config s)) <= index)%nat ->
      customPhrases (Upload.config (Upload.removeCustomPhrase index s))
      = customPhrases (Upload.config s))
  /\ ((index < List.length (customPhrases (Upload.config s)))%nat ->
      S (List.length
           (customPhrases (Upload.config (Upload.removeCustomPhrase index s))))
      = List.length (customPhrases (Upload.config s)))
  /\ Upload.savedLists (Upload.removeCustomPhrase index s)
     = Upload.savedLists s.
Proof.
  assert (E : customPhrases (Upload.config (Upload.removeCustomPhrase index s))
              = firstn index (customPhrases (Upload.config s))
                ++ skipn (S index) (customPhrases (Upload.config s))).
  { unfold Upload.removeCustomPhrase, Upload.setConfig, Upload.removeIndex.
    cbn [Upload.config customPhrases Upload.withPhrases].
    exact (removeIndex_shift _ 0%nat index). }
  split; [exact E|]. split; [|split; [|reflexivity]].
  - intros Hle. rewrite E.
    rewrite firstn_all2 by exact Hle.
    rewrite skipn_all2 by lia. apply app_nil_r.
  - intros Hlt. rewrite E, length_app, length_firstn, length_skipn. lia.
Qed.

(** ** The limit of ten custom phrases *)

Lemma step_phrasesBounded (s : Upload.State) (a : Upload.Action) :
  phrasesBounded s -> phrasesBounded (Upload.step s a).
Proof.
  intros [Hc Hl]. destruct a as [key|v| |index|listId|v|now| ];
    cbn [Upload.step].
  - split; [|exact Hl]. destruct key; exact Hc.
  - split; assumption.
  - unfold Upload.addCustomPhrase.
    destruct (Upload.truthy (Upload.trim (Upload.newPhrase s))); simpl;
      [|split; assumption].
    destruct (Nat.ltb_spec (List.length (customPhrases (Upload.config s))) 10)
      as [Hlt|Hge]; [|split; assumption].
    split; [|exact Hl].
    cbn [Upload.config customPhrases Upload.withPhrases].
    rewrite length_app. simpl. lia.
  - split; [|exact Hl].
    unfold Upload.removeCustomPhrase, Upload.setConfig, Upload.removeIndex.
    cbn [Upload.config customPhrases Upload.withPhrases].
    rewrite (removeIndex_shift _ 0%nat index).
    rewrite length_app, length_firstn, length_skipn. lia.
  - unfold Upload.handleLoadList. cbn [Upload.savedLists].
    destruct (find _ (Upload.savedLists s)) as [l|] eqn:E;
      [|split; assumption].
    split; [|exact Hl].
    cbn [Upload.setConfig Upload.config customPhrases Upload.withPhrases].
    apply find_some in E. destruct E as [Hin _].
    rewrite Forall_forall in Hl. now apply Hl.
  - split; assumption.
  - unfold Upload.saveCurrentList.
    destruct (Upload.truthy _ && _); [|split; assumption].
    split; [exact Hc|].
    cbn [Upload.savedLists]. unfold handleSaveList.
    apply Forall_app. split; [exact Hl|].
    constructor; [exact Hc|constructor].
  - split; [exact Hc|].
    cbn [Upload.deleteSelectedList Upload.savedLists].
    unfold handleDeleteList.
    apply Forall_forall. intros l Hin. apply filter_In in Hin.
    rewrite Forall_forall in Hl. now apply Hl.
Qed.

(** Whatever the user does in the upload view, in whatever order, there
    are never more than ten custom phrases, and no saved list holds more
    than ten phrases. *)
Theorem custom_phrases_at_most_ten (actions : list Upload.Action) :
  (List.length
     (customPhrases
        (Upload.config (fold_left Upload.step actions Upload.initial)))
   <= 10)%nat
  /\ Forall (fun l => (List.length (PhraseList.phrases l) <= 10)%nat)
       (Upload.savedLists (fold_left Upload.step actions Upload.initial)).
Proof.
  assert (H : forall s, phrasesBounded s ->
                        phrasesBounded (fold_left Upload.step actions s)).
  { induction actions as [|a l IH]; intros s Hs; simpl; [exact Hs|].
    apply IH. now apply step_phrasesBounded. }
  apply (H Upload.initial). split.
  - simpl. lia.
  - unfold Upload.initial, defaultLists. cbn [Upload.savedLists].
    repeat constructor; simpl; lia.
Qed.

(** ** The toggles of the configuration *)

(** A toggle of the configuration flips the flag of its own category and no
    other, so it changes which cuts pass the configuration for that category
    only; two toggles of the same key restore the configuration. *)
Theorem toggleSetting_category (key : Upload.SettingKey) (s : Upload.State) :
  flagOf (Upload.config (Upload.toggleSetting key s)) (keyCategory key)
  = negb (flagOf (Upload.config s) (keyCategory key))
  /\ (forall c, type c <> keyCategory key ->
                keepCut (Upload.config (Upload.toggleSetting key s)) c
                = keepCut (Upload.config s) c)
  /\ Upload.toggleSetting key (Upload.toggleSetting key s) = s.
Proof.
  destruct s as [cfg lists np sel naming nm].
  destruct cfg as [f1 f2 f3 f4 f5 th ps fmt ql].
  split; [destruct key; reflexivity|]. split.
  - intros c Hc. unfold keepCut.
    destruct key; simpl in *; destruct (type c); simpl;
      try reflexivity; congruence.
  - destruct key; unfold Upload.toggleSetting, Upload.setConfig; simpl;
      rewrite negb_involutive; reflexivity.
Qed.

(** * Properties of the processing view *)

(** ** The simulated rendering ends *)

Lemma increment_min (p : Z) (r1 r2 : Q) : (1 <= Process.increment p r1 r2)%Z.
Proof. unfold Process.increment. destruct (_ && _); lia. Qed.

Lemma Qfloor_below (x : Q) (k : Z) : x < inject_Z k -> (Qfloor x < k)%Z.
Proof.
  intros H. rewrite Zlt_Qlt.
  eapply Qle_lt_trans; [apply Qfloor_le|exact H].
Qed.

Lemma increment_max (p : Z) (r1 r2 : Q) :
  r1 < 1 -> r2 < 1 -> (Process.increment p r1 r2 <= 4)%Z.
Proof.
  intros H1 H2. unfold Process.increment.
  assert (Qfloor (r1 * 5) < 5)%Z
    by (apply Qfloor_below; change (inject_Z 5) with 5; lra).
  assert (Qfloor (r2 * 3) < 3)%Z
    by (apply Qfloor_below; change (inject_Z 3) with 3; lra).
  destruct (_ && _); lia.
Qed.

Lemma tick_progress (s : Process.State) (r : Q * Q) :
  (0 <= Process.progress s <= 100)%Z ->
  (Process.isComplete s = true -> Process.progress s = 100%Z) ->
  (Z.min 100 (Process.progress s + 1) <= Process.progress (Process.tick s r)
   <= 100)%Z
  /\ (Process.progress s <= Process.progress (Process.tick s r))%Z
  /\ (Process.isComplete (Process.tick s r) = true ->
      Process.progress (Process.tick s r) = 100%Z)
  /\ (Process.progress s = 100%Z ->
      Process.isComplete (Process.tick s r) = true)
  /\ (fst r < 1 -> snd r < 1 ->
      (Process.progress (Process.tick s r) <= Process.progress s + 4)%Z).
Proof.
  intros Hp Hc. unfold Process.tick.
  pose proof (increment_min (Process.progress s) (fst r) (snd r)) as Hi.
  destruct (Z.leb_spec 100 (Process.progress s)) as [H|H].
  - destruct (Process.isComplete s) eqn:E; simpl;
      repeat split; try lia; auto.
  - simpl. repeat split; try lia.
    + intros E. specialize (Hc E). lia.
    + intros H1 H2.
      pose proof (increment_max (Process.progress s) _ _ H1 H2). lia.
Qed.

Lemma run_progress (rs : list (Q * Q)) :
  forall s,
    (0 <= Process.progress s <= 100)%Z ->
    (Process.isComplete s = true -> Process.progress s = 100%Z) ->
    (Z.min 100 (Process.progress s + Z.of_nat (List.length rs))
     <= Process.progress (Process.run rs s) <= 100)%Z
    /\ (Process.isComplete (Process.run rs s) = true ->
        Process.progress (Process.run rs s) = 100%Z)
    /\ (Process.progress s = 100%Z -> rs <> [] ->
        Process.isComplete (Process.run rs s) = true)
    /\ (Forall (fun r => fst r < 1 /\ snd r < 1) rs ->
        (Process.progress (Process.run rs s)
         <= Process.progress s + 4 * Z.of_nat (List.length rs))%Z).
Proof.
  induction rs as [|r rs IH]; intros s Hp Hc.
  - simpl. repeat split; try lia; auto.
  - destruct (tick_progress s r Hp Hc) as (H1 & H2 & H3 & H4 & H5).
    assert (Hp' : (0 <= Process.progress (Process.tick s r) <= 100)%Z)
      by lia.
    destruct (IH (Process.tick s r) Hp' H3) as (I1 & I2 & I3 & I4).
    change (Process.run (r :: rs) s) with (Process.run rs (Process.tick s r)).
    cbn [List.length]. rewrite Nat2Z.inj_succ.
    split; [lia|]. split; [exact I2|]. split.
    + intros E _. destruct rs as [|r' rs'].
      * simpl. now apply H4.
      * apply I3; [lia|discriminate].
    + intros Hall. inversion Hall as [|? ? [Hr1 Hr2] Hall']; subst.
      specialize (I4 Hall'). specialize (H5 Hr1 Hr2). lia.
Qed.

(** Whatever the random numbers are, the progress of the simulated
    rendering stays between 0 and 100 and grows by at least one per step
    until it is 100, so it is 100 after 100 steps and the view is complete
    after 101; completion is reported only at 100; and with random numbers
    below 1 a step adds at most 4, so completion takes at least 25 steps. *)
Theorem rendering_completes (rs : list (Q * Q)) :
  (0 <= Process.progress (Process.run rs Process.initial) <= 100)%Z
  /\ (Z.min 100 (Z.of_nat (List.length rs))
      <= Process.progress (Process.run rs Process.initial))%Z
  /\ ((101 <= List.length rs)%nat ->
      Process.progress (Process.run rs Process.initial) = 100%Z
      /\ Process.isComplete (Process.run rs Process.initial) = true)
  /\ (Process.isComplete (Process.run rs Process.initial) = true ->
      Process.progress (Process.run rs Process.initial) = 100%Z)
  /\ (Forall (fun r => fst r < 1 /\ snd r < 1) rs ->
      Process.isComplete (Process.run rs Process.initial) = true ->
      (25 <= List.length rs)%nat).
Proof.
  assert (Hp : (0 <= Process.progress Process.initial <= 100)%Z)
    by (simpl; lia).
  assert (Hc : Process.isComplete Process.initial = true ->
               Process.progress Process.initial = 100%Z)
    by (simpl; discriminate).
  destruct (run_progress rs Process.initial Hp Hc) as (H1 & H2 & _ & H4).
  change (Process.progress Process.initial) with 0%Z in H1.
  split; [lia|]. split; [lia|]. split; [|split].
  - intros Hlen.
    rewrite <- (firstn_skipn 100 rs). unfold Process.run.
    rewrite fold_left_app.
    fold (Process.run (firstn 100 rs) Process.initial).
    fold (Process.run (skipn 100 rs)
            (Process.run (firstn 100 rs) Process.initial)).
    destruct (run_progress (firstn 100 rs) Process.initial Hp Hc)
      as (F1 & F2 & _).
    rewrite length_firstn in F1.
    change (Process.progress Process.initial) with 0%Z in F1.
    assert (F : Process.progress (Process.run (firstn 100 rs) Process.initial)
                = 100%Z) by lia.
    destruct (run_progress (skipn 100 rs)
                (Process.run (firstn 100 rs) Process.initial))
      as (G1 & G2 & G3 & _); [lia|exact F2|].
    assert (Hne : skipn 100 rs <> []).
    { intros E. apply (f_equal (@List.length _)) in E.
      rewrite length_skipn in E. simpl in E. lia. }
    split; [lia|]. apply G3; assumption.
  - exact H2.
  - intros Hall Hdone. specialize (H4 Hall). specialize (H2 Hdone).
    change (Process.progress Process.initial) with 0%Z in H4. lia.
Qed.

Lemma getStageInfo_mono (p q : Z) :
  (p <= q)%Z ->
  (Process.stageRank (Process.getStageInfo p)
   <= Process.stageRank (Process.getStageInfo q))%nat.
Proof.
  intros H. unfold Process.getStageInfo.
  repeat match goal with
         | |- context [(?a <? ?b)%Z] => destruct (Z.ltb_spec a b)
         end; simpl; lia.
Qed.

(** The stage shown during the rendering never goes back to an earlier
    one, it starts at the first stage and it is the last stage once the
    rendering is complete. *)
Theorem rendering_stages_advance (rs1 rs2 : list (Q * Q)) :
  (Process.stageRank
     (Process.getStageInfo
        (Process.progress (Process.run rs1 Process.initial)))
   <= Process.stageRank
        (Process.getStageInfo
           (Process.progress (Process.run (rs1 ++ rs2) Process.initial))))%nat
  /\ Process.getStageInfo (Process.progress Process.initial)
     = Process.Initializing
  /\ (Process.isComplete (Process.run rs1 Process.initial) = true ->
      Process.getStageInfo
        (Process.progress (Process.run rs1 Process.initial))
      = Process.Finalizing).
Proof.
  assert (Hp : (0 <= Process.progress Process.initial <= 100)%Z)
    by (simpl; lia).
  assert (Hc : Process.isComplete Process.initial = true ->
               Process.progress Process.initial = 100%Z)
    by (simpl; discriminate).
  destruct (run_progress rs1 Process.initial Hp Hc) as (H1 & H2 & _).
  split; [|split; [reflexivity|]].
  - apply getStageInfo_mono.
    unfold Process.run. rewrite fold_left_app.
    fold (Process.run rs1 Process.initial).
    fold (Process.run rs2 (Process.run rs1 Process.initial)).
    destruct (run_progress rs2 (Process.run rs1 Process.initial))
      as (G1 & _); [lia|exact H2|]. lia.
  - intros Hdone. rewrite (H2 Hdone). reflexivity.
Qed.

(** ** The skip of the preview player *)

Lemma triggers_spec (t : Q) (c : CutEvent) :
  Process.triggers t c = true <->
  status c = accepted /\ start c <= t /\ t < end_ c - (1 # 10).
Proof.
  unfold Process.triggers. rewrite !andb_true_iff.
  rewrite Status_eqb_spec, NumFacts.geb_spec, NumFacts.ltb_spec. tauto.
Qed.

Lemma process_jump_decreases (cuts : list CutEvent) (t : Q) (c : CutEvent) :
  Process.activeCut cuts t = Some c ->
  forall t', Process.target c <= t' ->
  (Process.pending cuts t' < Process.pending cuts t)%nat.
Proof.
  intros H t' Ht'. unfold Process.activeCut in H.
  apply find_some in H. destruct H as [Hin Hc].
  apply triggers_spec in Hc. destruct Hc as (Ha & Hs & He).
  unfold Process.target in Ht'.
  unfold Process.pending. apply filter_length_lt with (x := c); auto.
  - intros y _ Hy. apply andb_true_iff in Hy. destruct Hy as [Hy1 Hy2].
    rewrite Hy1. simpl. apply NumFacts.ltb_spec.
    apply NumFacts.ltb_spec in Hy2. lra.
  - unfold isAccepted. rewrite Ha. simpl. apply NumFacts.ltb_spec. exact He.
  - apply andb_false_iff. right. apply NumFacts.ltb_false. lra.
Qed.

Lemma process_pending_mono (cuts : list CutEvent) (t t' : Q) :
  t <= t' -> (Process.pending cuts t' <= Process.pending cuts t)%nat.
Proof.
  intros Hle. unfold Process.pending. apply filter_length_le.
  intros c _ H. apply andb_true_iff in H. destruct H as [Ha Hlt].
  rewrite Ha. simpl. apply NumFacts.ltb_spec.
  apply NumFacts.ltb_spec in Hlt. lra.
Qed.

Lemma process_pending_le (cuts : list CutEvent) (t : Q) :
  (Process.pending cuts t <= List.length (filter isAccepted cuts))%nat.
Proof.
  unfold Process.pending. apply filter_length_le.
  intros c _ H. apply andb_true_iff in H. tauto.
Qed.

(** A frame of the preview player leaves a paused or absent media element
    alone.  When it jumps, the position was inside an accepted cut, the
    jump goes forward by more than 0.15 seconds to a position after the end
    of the cut, and there neither this player nor the review player finds
    the position inside that cut.  With the media advancing between the
    frames, the frames make at most as many jumps as there are accepted
    cuts. *)
Theorem process_skip_clears (cuts : list CutEvent) (v : Video.t) :
  Process.checkTime cuts None = None
  /\ (Video.paused v = true -> Process.checkTime cuts (Some v) = Some v)
  /\ (forall c,
        Video.paused v = false ->
        Process.activeCut cuts (Video.currentTime v) = Some c ->
        Process.checkTime cuts (Some v)
        = Some (Video.mk false (end_ c + (1 # 20)))
        /\ insideAccepted (Video.currentTime v) c = true
        /\ Video.currentTime v + (3 # 20) < end_ c + (1 # 20)
        /\ Process.triggers (end_ c + (1 # 20)) c = false
        /\ insideAccepted (end_ c + (1 # 20)) c = false)
  /\ (forall advances t,
        Forall (fun d => 0 <= d) advances ->
        (fst (Process.playFrames cuts advances t)
         <= List.length (filter isAccepted cuts))%nat).
Proof.
  split; [reflexivity|]. split.
  { intros Hp. unfold Process.checkTime. now rewrite Hp. }
  split.
  - intros c Hp Hc. unfold Process.checkTime. rewrite Hp, Hc. simpl.
    unfold Process.activeCut in Hc. apply find_some in Hc.
    destruct Hc as [_ Hc]. apply triggers_spec in Hc.
    destruct Hc as (Ha & Hs & He).
    split; [unfold Video.seek, Process.target; now rewrite Hp|].
    split; [apply insideAccepted_spec; repeat split; [assumption|lra|lra]|].
    split; [lra|]. split.
    + destruct (Process.triggers (end_ c + (1 # 20)) c) eqn:E;
        [|reflexivity].
      apply triggers_spec in E. lra.
    + destruct (insideAccepted (end_ c + (1 # 20)) c) eqn:E; [|reflexivity].
      apply insideAccepted_spec in E. lra.
  - intros advances t Hadv.
    assert (H : forall t, (fst (Process.playFrames cuts advances t)
                           <= Process.pending cuts t)%nat).
    { clear t. induction Hadv as [|d rest Hd _ IH]; intros t; simpl; [lia|].
      destruct (Process.activeCut cuts t) as [c|] eqn:E.
      - pose proof (process_jump_decreases cuts t c E (Process.target c + d))
          as Hdec.
        specialize (IH (Process.target c + d)).
        destruct (Process.playFrames cuts rest (Process.target c + d))
          as [k p].
        simpl in *. assert (Process.target c <= Process.target c + d) by lra.
        specialize (Hdec H). lia.
      - specialize (IH (t + d)).
        assert (Hm : (Process.pending cuts (t + d) <= Process.pending cuts t)%nat)
          by (apply process_pending_mono; lra).
        lia. }
    pose proof (H t). pose proof (process_pending_le cuts t). lia.
Qed.

(** * Properties of the analysis service *)

(** ** Rounding to two decimals *)

Lemma toFixed2_close (x : Q) :
  x - (1 # 200) <= Mock.toFixed2 x /\ Mock.toFixed2 x <= x + (1 # 200).
Proof.
  unfold Mock.toFixed2, Qdiv. change (/ 100) with (1 # 100).
  destruct (Num.ltb x 0).
  - pose proof (Qfloor_le (- x * 100 + (1 # 2))) as H1.
    pose proof (Qlt_floor (- x * 100 + (1 # 2))) as H2.
    rewrite inject_Z_plus in H2. change (inject_Z 1) with 1 in H2.
    set (n := inject_Z (Qfloor (- x * 100 + (1 # 2)))) in *.
    split; lra.
  - pose proof (Qfloor_le (x * 100 + (1 # 2))) as H1.
    pose proof (Qlt_floor (x * 100 + (1 # 2))) as H2.
    rewrite inject_Z_plus in H2. change (inject_Z 1) with 1 in H2.
    set (n := inject_Z (Qfloor (x * 100 + (1 # 2)))) in *.
    split; lra.
Qed.

Lemma toFixed2_nonneg (x : Q) : 0 <= x -> 0 <= Mock.toFixed2 x.
Proof.
  intros H. unfold Mock.toFixed2, Qdiv. change (/ 100) with (1 # 100).
  replace (Num.ltb x 0) with false
    by (symmetry; apply NumFacts.ltb_false; exact H).
  assert (Hz : (0 <= Qfloor (x * 100 + (1 # 2)))%Z).
  { change 0%Z with (Qfloor 0). apply Qfloor_resp_le. lra. }
  rewrite Zle_Qle in Hz. change (inject_Z 0) with 0 in Hz.
  set (n := inject_Z (Qfloor (x * 100 + (1 # 2)))) in *. lra.
Qed.

(** ** The sort *)

Lemma insert_perm (x : CutEvent) (l : list CutEvent) :
  Permutation (Mock.insert x l) (x :: l).
Proof.
  induction l as [|y l IH]; simpl; [reflexivity|].
  destruct (Num.leb (start x) (start y)); [reflexivity|].
  rewrite IH. apply perm_swap.
Qed.

Lemma sort_perm (l : list CutEvent) : Permutation (Mock.sort l) l.
Proof.
  induction l as [|x l IH]; simpl; [reflexivity|].
  rewrite insert_perm. now constructor.
Qed.

Lemma insert_sorted (x : CutEvent) (l : list CutEvent) :
  sortedByStart l -> sortedByStart (Mock.insert x l).
Proof.
  unfold sortedByStart. induction 1 as [|y l Hl IH Hall]; simpl.
  - repeat constructor.
  - destruct (Num.leb (start x) (start y)) eqn:E.
    + apply NumFacts.leb_spec in E.
      constructor; [now constructor|].
      constructor; [exact E|].
      rewrite Forall_forall in *. intros z Hz.
      specialize (Hall z Hz). lra.
    + assert (Hlt : start y <= start x).
      { destruct (Qlt_le_dec (start y) (start x)) as [H|H];
          [lra|].
        apply NumFacts.leb_spec in H. congruence. }
      constructor; [exact IH|].
      rewrite Forall_forall in *. intros z Hz.
      apply (Permutation_in _ (insert_perm x l)) in Hz.
      destruct Hz as [<-|Hz]; [exact Hlt|now apply Hall].
Qed.

Lemma sort_sorted (l : list CutEvent) : sortedByStart (Mock.sort l).
Proof.
  induction l as [|x l IH]; simpl; [constructor|].
  apply insert_sorted. exact IH.
Qed.

(** ** The generated cuts *)

Lemma mockCut_fields (duration : Q) (i : nat) (d : Mock.Draws) :
  exists len,
    (len = (4 # 10) \/ len = (12 # 10) \/ len = 1 \/ len = (5 # 10)
     \/ (len = 2 /\ type (Mock.mockCut duration i d) = silence))
    /\ (type (Mock.mockCut duration i d) = silence -> len = 2)
    /\ start (Mock.mockCut duration i d)
       = Mock.toFixed2 (Mock.rStart d * (duration - 5))
    /\ end_ (Mock.mockCut duration i d)
       = Mock.toFixed2 (Mock.rStart d * (duration - 5) + len)
    /\ status (Mock.mockCut duration i d) = accepted
    /\ confidence (Mock.mockCut duration i d)
       = (8 # 10) + Mock.rConf d * (19 # 100)
    /\ id (Mock.mockCut duration i d)
       = ("cut-" ++ Fmt.toString (Z.of_nat i))%string.
Proof.
  unfold Mock.mockCut.
  destruct (Num.ltb (Mock.rType d) (35 # 100));
    [exists (4 # 10); simpl; repeat split; auto; discriminate|].
  destruct (Num.ltb (Mock.rType d) (55 # 100));
    [exists (12 # 10); simpl; repeat split; auto; discriminate|].
  destruct (Num.ltb (Mock.rType d) (70 # 100));
    [exists 1; simpl; repeat split; auto; discriminate|].
  destruct (Num.ltb (Mock.rType d) (85 # 100));
    [exists (5 # 10); simpl; repeat split; auto; discriminate|].
  exists 2. simpl. repeat split; auto. right. right. right. right. now split.
Qed.

Lemma filter_all_true {A : Type} (f : A -> bool) (l : list A) :
  (forall x, In x l -> f x = true) -> filter f l = l.
Proof.
  induction l as [|a l IH]; intros H; simpl; [reflexivity|].
  rewrite (H a (or_introl eq_refl)). f_equal. apply IH.
  intros x Hx. apply H. now right.
Qed.

Lemma generated_in (duration : Q) (draws : nat -> Mock.Draws) (c : CutEvent) :
  In c (Mock.analyzeVideoMock duration draws) ->
  exists i, c = Mock.mockCut duration i (draws i).
Proof.
  intros H. unfold Mock.analyzeVideoMock in H.
  apply (Permutation_in _ (sort_perm _)) in H.
  unfold Mock.generated in H. apply in_map_iff in H.
  destruct H as (i & <- & _). now exists i.
Qed.

Lemma mockCut_well_formed (duration : Q) (i : nat) (d : Mock.Draws) :
  5 <= duration -> Mock.inRange d ->
  status (Mock.mockCut duration i d) = accepted
  /\ 0 <= start (Mock.mockCut duration i d)
  /\ start (Mock.mockCut duration i d) + (39 # 100)
     <= end_ (Mock.mockCut duration i d)
  /\ end_ (Mock.mockCut duration i d) <= duration
  /\ (8 # 10) <= confidence (Mock.mockCut duration i d)
  /\ confidence (Mock.mockCut duration i d) < (99 # 100)
  /\ keepCut defaultConfig (Mock.mockCut duration i d) = true.
Proof.
  intros Hd ((Hs0 & Hs1) & _ & _ & (Hc0 & Hc1)).
  destruct (mockCut_fields duration i d)
    as (len & Hlen & Hsil & Es & Ee & Est & Ec & _).
  set (raw := Mock.rStart d * (duration - 5)) in *.
  assert (Hraw0 : 0 <= raw) by (apply Qmult_le_0_compat; lra).
  assert (Hraw1 : raw <= duration - 5).
  { assert (H : raw <= 1 * (duration - 5))
      by (apply Qmult_le_compat_r; lra).
    lra. }
  assert (Hl : (4 # 10) <= len /\ len <= 2).
  { destruct Hlen as [->|[->|[->|[->|[-> _]]]]]; split; lra. }
  pose proof (toFixed2_close raw) as [A1 A2].
  pose proof (toFixed2_close (raw + len)) as [B1 B2].
  pose proof (toFixed2_nonneg raw Hraw0) as A0.
  rewrite Es, Ee, Est, Ec.
  split; [reflexivity|]. split; [exact A0|].
  split; [lra|]. split; [lra|]. split; [lra|]. split; [lra|].
  apply keepCut_spec. split.
  - unfold flagOf. destruct (type (Mock.mockCut duration i d)); reflexivity.
  - intros Ht. rewrite Es, Ee. specialize (Hsil Ht). subst len.
    change (silenceThreshold defaultConfig) with 1. lra.
Qed.

(** For a duration of at least 5 seconds and random numbers in the range of
    [Math.random()], the analysis returns [max(5, floor(duration / 10))]
    cuts in the order of their starts; each one is accepted, lies within
    the media with its start at least 0.39 seconds before its end, has a
    confidence from 0.8 up to 0.99, and passes the initial configuration. *)
Theorem mock_cuts_well_formed (duration : Q) (draws : nat -> Mock.Draws)
        (Hd : 5 <= duration) (Hr : forall i, Mock.inRange (draws i)) :
  List.length (Mock.analyzeVideoMock duration draws)
  = Z.to_nat (Z.max 5 (Qfloor (duration / 10)))
  /\ (5 <= List.length (Mock.analyzeVideoMock duration draws))%nat
  /\ sortedByStart (Mock.analyzeVideoMock duration draws)
  /\ (forall c,
        In c (Mock.analyzeVideoMock duration draws) ->
        status c = accepted
        /\ 0 <= start c
        /\ start c + (39 # 100) <= end_ c
        /\ end_ c <= duration
        /\ (8 # 10) <= confidence c
        /\ confidence c < (99 # 100))
  /\ filteredCuts defaultConfig (Mock.analyzeVideoMock duration draws)
     = Mock.analyzeVideoMock duration draws.
Proof.
  assert (Hlen : List.length (Mock.analyzeVideoMock duration draws)
                 = Z.to_nat (Z.max 5 (Qfloor (duration / 10)))).
  { unfold Mock.analyzeVideoMock.
    rewrite (Permutation_length (sort_perm _)).
    unfold Mock.generated. rewrite length_map, length_seq. reflexivity. }
  split; [exact Hlen|]. split; [rewrite Hlen; lia|].
  split; [apply sort_sorted|]. split.
  - intros c Hc. destruct (generated_in _ _ _ Hc) as (i & ->).
    destruct (mockCut_well_formed duration i (draws i) Hd (Hr i))
      as (H1 & H2 & H3 & H4 & H5 & H6 & _).
    repeat split; assumption.
  - unfold filteredCuts.
    assert (Hall : forall c, In c (Mock.analyzeVideoMock duration draws) ->
                             keepCut defaultConfig c = true).
    { intros c Hc. destruct (generated_in _ _ _ Hc) as (i & ->).
      apply (mockCut_well_formed duration i (draws i) Hd (Hr i)). }
    apply filter_all_true. exact Hall.
Qed.

(** A media of one minute and random numbers that are all one half. *)
Lemma mock_cuts_well_formed_witness :
  5 <= 60
  /\ (forall i : nat,
        Mock.inRange (Mock.mkDraws (1 # 2) (1 # 2) (1 # 2) (1 # 2)))
  /\ List.length
       (Mock.analyzeVideoMock 60
          (fun _ => Mock.mkDraws (1 # 2) (1 # 2) (1 # 2) (1 # 2)))
     = 6%nat.
Proof.
  assert (Hd : 5 <= 60) by (intros E; discriminate E).
  assert (Hr : forall i : nat,
             Mock.inRange (Mock.mkDraws (1 # 2) (1 # 2) (1 # 2) (1 # 2))).
  { intros _. unfold Mock.inRange. simpl.
    repeat split; first [intros E; discriminate E | reflexivity]. }
  split; [exact Hd|]. split; [exact Hr|].
  exact (proj1 (mock_cuts_well_formed 60 _ Hd Hr)).
Defined.

(** ** From the analysis to the review and the metrics *)

Lemma mockDuration_cases (originalDuration : Q) :
  originalDuration == 0 \/ 5 <= originalDuration ->
  5 <= mockDuration originalDuration
  /\ (originalDuration == 0 -> mockDuration originalDuration = 60)
  /\ (5 <= originalDuration ->
      mockDuration originalDuration = originalDuration).
Proof.
  intros H. unfold mockDuration.
  destruct (Qeq_bool originalDuration 0) eqn:E.
  - apply Qeq_bool_iff in E. split; [lra|]. split; [reflexivity|]. lra.
  - apply Qeq_bool_neq in E. destruct H as [H|H]; [contradiction|].
    split; [exact H|]. split; [contradiction|reflexivity].
Qed.

Lemma all_accepted_metrics (cuts : list CutEvent) :
  (forall c, In c cuts -> status c = accepted /\ start c + (39 # 100) <= end_ c)
  -> spec_cutsCount cuts = List.length cuts
     /\ (cuts <> [] -> 0 < spec_timeSaved cuts)
     /\ 0 <= spec_timeSaved cuts.
Proof.
  induction cuts as [|a l IH]; intros H; simpl.
  - split; [reflexivity|]. split; [congruence|lra].
  - destruct (H a (or_introl eq_refl)) as [Ha Hlen].
    destruct IH as (I1 & _ & I3); [intros c Hc; apply H; now right|].
    rewrite Ha, I1. split; [reflexivity|]. split; [intros _|]; lra.
Qed.

(** The cuts handed to the review, when the duration is at least 5 seconds
    or unknown (then 60 seconds are analysed): they are in the order of
    their starts, accepted, and within the analysed duration, so a forced
    jump of the review never targets a time beyond it; every one of them
    counts in the metrics.  When the duration is unknown and a cut passes,
    the metrics report a negative final duration. *)
Theorem review_cuts_within_media (config : VideoConfig) (originalDuration : Q)
        (draws : nat -> Mock.Draws)
        (Hd : originalDuration == 0 \/ 5 <= originalDuration)
        (Hr : forall i, Mock.inRange (draws i)) :
  sortedByStart (reviewCuts config originalDuration draws)
  /\ (forall c,
        In c (reviewCuts config originalDuration draws) ->
        status c = accepted /\ 0 <= start c /\ start c < end_ c
        /\ end_ c <= mockDuration originalDuration)
  /\ (forall t e,
        jumpTarget (reviewCuts config originalDuration draws) t = Some e ->
        t < e /\ e <= mockDuration originalDuration)
  /\ cutsCount (calculateMetrics (reviewCuts config originalDuration draws)
                  originalDuration)
     = List.length (reviewCuts config originalDuration draws)
  /\ (originalDuration == 0 ->
      reviewCuts config originalDuration draws <> [] ->
      finalDuration (calculateMetrics
                       (reviewCuts config originalDuration draws)
                       originalDuration) < 0).
Proof.
  destruct (mockDuration_cases originalDuration Hd) as (H5 & _).
  pose proof (sort_sorted
                (Mock.generated (mockDuration originalDuration) draws))
    as Hsorted.
  fold (Mock.analyzeVideoMock (mockDuration originalDuration) draws)
    in Hsorted.
  assert (Hall : forall c,
             In c (Mock.analyzeVideoMock (mockDuration originalDuration)
                     draws) ->
             status c = accepted /\ 0 <= start c
             /\ start c + (39 # 100) <= end_ c
             /\ end_ c <= mockDuration originalDuration).
  { intros c Hc. destruct (generated_in _ _ _ Hc) as (i & ->).
    destruct (mockCut_well_formed (mockDuration originalDuration) i
                (draws i) H5 (Hr i)) as (H1 & H2 & H3 & H4 & _).
    tauto. }
  assert (Hin : forall c,
             In c (reviewCuts config originalDuration draws) ->
             status c = accepted /\ 0 <= start c
             /\ start c + (39 # 100) <= end_ c
             /\ end_ c <= mockDuration originalDuration).
  { intros c Hc. unfold reviewCuts, filteredCuts in Hc.
    apply filter_In in Hc. destruct Hc as [Hc _].
    exact (Hall c Hc). }
  destruct (all_accepted_metrics (reviewCuts config originalDuration draws))
    as (Hcount & Hpos & _).
  { intros c Hc. destruct (Hin c Hc) as (H1 & _ & H3 & _). tauto. }
  split; [apply sortedByStart_filter; exact Hsorted|]. split.
  { intros c Hc. destruct (Hin c Hc) as (H1 & H2 & H3 & H4).
    repeat split; try assumption. lra. }
  split.
  { intros t e He. destruct (jumpTarget_some _ _ _ He) as (c & Hc & Hi & ->).
    apply insideAccepted_spec in Hi. destruct (Hin c Hc) as (_ & _ & _ & H4).
    split; [tauto|exact H4]. }
  cbn [calculateMetrics cutsCount finalDuration].
  split; [rewrite accepted_count; exact Hcount|].
  intros H0 Hne. specialize (Hpos Hne).
  pose proof (accepted_time_sum (reviewCuts config originalDuration draws)).
  lra.
Qed.

(** An unknown duration and random numbers that are all one half. *)
Lemma review_cuts_within_media_witness :
  (0 == 0 \/ 5 <= 0)
  /\ (forall i : nat,
        Mock.inRange (Mock.mkDraws (1 # 2) (1 # 2) (1 # 2) (1 # 2)))
  /\ sortedByStart
       (reviewCuts defaultConfig 0
          (fun _ => Mock.mkDraws (1 # 2) (1 # 2) (1 # 2) (1 # 2))).
Proof.
  assert (Hd : 0 == 0 \/ 5 <= 0) by (left; reflexivity).
  assert (Hr : forall i : nat,
             Mock.inRange (Mock.mkDraws (1 # 2) (1 # 2) (1 # 2) (1 # 2))).
  { intros _. unfold Mock.inRange. simpl.
    repeat split; first [intros E; discriminate E | reflexivity]. }
  split; [exact Hd|]. split; [exact Hr|].
  exact (proj1 (review_cuts_within_media defaultConfig 0 _ Hd Hr)).
Defined.

(** ** The report without a model *)

Lemma countType_cons (t : CutType) (c : CutEvent) (l : list CutEvent) :
  Mock.countType t (c :: l)
  = ((if CutType_eqb (type c) t then 1 else 0) + Mock.countType t l)%nat.
Proof.
  unfold Mock.countType. simpl.
  destruct (CutType_eqb (type c) t); reflexivity.
Qed.

Lemma removedTotal_sum (l : list CutEvent) :
  Mock.removedTotal l
  == spec_timeSaved (map (fun c => withStatus c accepted) l).
Proof.
  unfold Mock.removedTotal. rewrite fold_left_sum. ring.
Qed.

Lemma find_none_all_filter {A : Type} (f : A -> bool) (l : list A) :
  filter f l = [] <-> (forall x, In x l -> f x = false).
Proof.
  induction l as [|a l IH]; simpl.
  - split; [intros _ x []|reflexivity].
  - destruct (f a) eqn:E; split.
    + discriminate.
    + intros H. specialize (H a (or_introl eq_refl)). congruence.
    + intros H x [<-|Hx]; [exact E|now apply IH].
    + intros H. apply IH. intros x Hx. apply H. now right.
Qed.

Lemma countType_total (cuts : list CutEvent) :
  (Mock.countType filler cuts + Mock.countType cliche cuts
   + Mock.countType silence cuts + Mock.countType repetition cuts
   + Mock.countType stutter cuts = List.length cuts)%nat.
Proof.
  induction cuts as [|a l IH]; [reflexivity|].
  rewrite !countType_cons. cbn [List.length].
  destruct (type a); simpl; lia.
Qed.

Lemma removedTotal_split (cuts : list CutEvent) :
  Mock.removedTotal cuts
  == spec_timeSaved cuts
     + Mock.removedTotal
         (filter (fun c => Status_eqb (status c) rejected) cuts).
Proof.
  induction cuts as [|a l IH]; [reflexivity|].
  rewrite removedTotal_sum in *. cbn [map spec_timeSaved filter].
  cbn [withStatus status start end_].
  destruct (status a) eqn:E; cbn [Status_eqb].
  - rewrite IH. rewrite !removedTotal_sum. ring.
  - rewrite IH. rewrite !removedTotal_sum.
    cbn [map spec_timeSaved withStatus status start end_]. ring.
Qed.

(** The five counts of the report add up to the number of cuts.  The total
    it prints as removed sums every cut, whatever its status: it is the time
    saved of the metrics plus the lengths of the rejected cuts, hence the
    time saved exactly when no cut is rejected and at least the time saved
    when no cut ends before it starts.  For a duration of 0 the percentage
    is not a finite number. *)
Theorem report_counts_all_cuts (cuts : list CutEvent) (d : Q) :
  (Mock.countType filler cuts + Mock.countType cliche cuts
   + Mock.countType silence cuts + Mock.countType repetition cuts
   + Mock.countType stutter cuts = List.length cuts)%nat
  /\ Mock.removedTotal cuts
     == timeSaved (calculateMetrics cuts d)
        + Mock.removedTotal
            (filter (fun c => Status_eqb (status c) rejected) cuts)
  /\ ((forall c, In c cuts -> status c = accepted) ->
      Mock.removedTotal cuts == timeSaved (calculateMetrics cuts d))
  /\ ((forall c, In c cuts -> start c <= end_ c) ->
      timeSaved (calculateMetrics cuts d) <= Mock.removedTotal cuts)
  /\ Mock.concisePercent cuts 0 = NotFinitePct.
Proof.
  cbn [calculateMetrics timeSaved].
  pose proof (accepted_time_sum cuts) as Hacc.
  pose proof (removedTotal_split cuts) as Hsplit.
  split; [apply countType_total|].
  split; [rewrite Hacc; exact Hsplit|]. split; [|split].
  - intros Hall. rewrite Hacc, Hsplit.
    rewrite (proj2 (find_none_all_filter _ cuts)).
    + unfold Mock.removedTotal. simpl. ring.
    + intros c Hc. now rewrite (Hall c Hc).
  - intros Hall. rewrite Hacc, Hsplit.
    assert (0 <= Mock.removedTotal
                   (filter (fun c => Status_eqb (status c) rejected) cuts)).
    { rewrite removedTotal_sum. apply spec_timeSaved_nonneg.
      intros c Hc _. apply in_map_iff in Hc.
      destruct Hc as (c0 & <- & Hc0). apply filter_In in Hc0.
      simpl. apply Hall. tauto. }
    lra.
  - reflexivity.
Qed.

(** * Further properties of the review view, continued *)

(** ** A scrub once the metadata is loaded *)

Lemma scrubX_cases (rect : DOMRect) (clientX : Q) :
  0 <= width rect ->
  (clientX <= left rect -> scrubX rect clientX == 0)
  /\ (left rect + width rect <= clientX -> scrubX rect clientX == width rect)
  /\ (left rect <= clientX -> clientX <= left rect + width rect ->
      scrubX rect clientX == clientX - left rect).
Proof.
  intros Hw. unfold scrubX.
  pose proof (Q.le_min_l (clientX - left rect) (width rect)) as M1.
  pose proof (Q.le_min_r (clientX - left rect) (width rect)) as M2.
  pose proof (Q.le_max_l 0 (Qmin (clientX - left rect) (width rect))) as X1.
  pose proof (Q.le_max_r 0 (Qmin (clientX - left rect) (width rect))) as X2.
  split; [|split].
  - intros H. apply Qle_antisym; [|exact X1].
    apply Q.max_lub; lra.
  - intros H. apply Qle_antisym.
    + apply Q.max_lub; [exact Hw|exact M2].
    + eapply Qle_trans; [|exact X2].
      apply Q.min_glb; lra.
  - intros H1 H2. apply Qle_antisym.
    + apply Q.max_lub; [lra|exact M1].
    + eapply Qle_trans; [|exact X2].
      apply Q.min_glb; lra.
Qed.

(** Once the metadata has given a positive duration and the track has a
    positive width, a scrub move does not throw; it writes one and the same
    time, within the duration, to the media element and to the play-head: 0
    for a pointer left of the track, the duration for a pointer right of
    it, and the proportional time for a pointer on it. *)
Theorem scrub_move_after_metadata (cuts : list CutEvent) (clientX d : Q)
        (s : State) (rect : DOMRect) (v : Video.t)
        (Hr : timelineRef s = Some rect) (Hv : videoRef s = Some v)
        (Hw : 0 < width rect) (Hd : 0 < d) :
  exists s',
    handleScrubMove cuts clientX (onLoadedMetadata d s) = Done s'
    /\ videoRef s' = Some (Video.seek v (currentTime s'))
    /\ 0 <= currentTime s' /\ currentTime s' <= d
    /\ (clientX <= left rect -> currentTime s' == 0)
    /\ (left rect + width rect <= clientX -> currentTime s' == d)
    /\ (left rect <= clientX -> clientX <= left rect + width rect ->
        currentTime s' == (clientX - left rect) / width rect * d).
Proof.
  unfold handleScrubMove, onLoadedMetadata.
  cbn [setDuration timelineRef videoRef duration]. rewrite Hr, Hv.
  replace (Num.gtb d 0) with true
    by (symmetry; apply NumFacts.gtb_spec; exact Hd).
  destruct (scrubPercentage rect clientX) as [p|] eqn:Hp.
  2:{ unfold scrubPercentage, Num.div in Hp.
      destruct (Qeq_bool (width rect) 0) eqn:E; [|discriminate].
      apply Qeq_bool_iff in E. lra. }
  destruct (scrubPercentage_range _ _ _ Hp) as [Hp0 Hp1].
  destruct (toTime_range p d Hp0 Hp1 (Qlt_le_weak _ _ Hd)) as [Ht0 Ht1].
  eexists. split; [reflexivity|]. cbn [setActiveCutId set_videoRef
    setCurrentTime videoRef currentTime].
  split; [reflexivity|]. split; [exact Ht0|]. split; [exact Ht1|].
  unfold scrubPercentage, Num.div in Hp.
  destruct (Qeq_bool (width rect) 0); [discriminate|]. injection Hp as <-.
  destruct (scrubX_cases rect clientX (Qlt_le_weak _ _ Hw)) as (C1 & C2 & C3).
  unfold toTime. split; [|split].
  - intros H. rewrite (C1 H). field. lra.
  - intros H. rewrite (C2 H). field. lra.
  - intros H1 H2. rewrite (C3 H1 H2). reflexivity.
Qed.

(** At [initialState] with a track of 500 pixels, after the metadata has
    given 100 seconds, a move at pixel 250 puts the play-head at 50. *)
Lemma scrub_move_after_metadata_witness :
  timelineRef (initialState (Some (Video.mk true 0)) (Some (mkRect 0 500)))
  = Some (mkRect 0 500)
  /\ videoRef (initialState (Some (Video.mk true 0)) (Some (mkRect 0 500)))
     = Some (Video.mk true 0)
  /\ 0 < width (mkRect 0 500) /\ 0 < 100
  /\ exists s',
       handleScrubMove metricsCuts 250
         (onLoadedMetadata 100
            (initialState (Some (Video.mk true 0)) (Some (mkRect 0 500))))
       = Done s'
       /\ currentTime s' == 50.
Proof.
  split; [reflexivity|]. split; [reflexivity|].
  split; [reflexivity|]. split; [reflexivity|].
  destruct (scrub_move_after_metadata metricsCuts 250 100
              (initialState (Some (Video.mk true 0)) (Some (mkRect 0 500)))
              (mkRect 0 500) (Video.mk true 0) eq_refl eq_refl
              eq_refl eq_refl)
    as (s' & H1 & _ & _ & _ & _ & _ & H7).
  exists s'. split; [exact H1|].
  rewrite H7; [reflexivity| |]; intros E; discriminate E.
Defined.

(** ** The play button after the media paused by itself *)

(** When the media element has paused by itself while [isPlaying] is still
    true, the play button pauses the paused element again; after one frame
    [isPlaying] is false and the play button plays. *)
Theorem play_button_after_external_pause (cuts : list CutEvent) (s : State)
        (v : Video.t)
        (Hv : videoRef s = Some v) (Hp : Video.paused v = true)
        (Hs : isScrubbing s = false) (Hi : isPlaying s = true) :
  videoRef (togglePlay true s) = Some v
  /\ isPlaying (checkTime cuts s) = false
  /\ videoRef (togglePlay true (checkTime cuts s))
     = Some (Video.mk false (Video.currentTime v)).
Proof.
  unfold togglePlay at 1. rewrite Hv, Hi. cbn [set_videoRef videoRef].
  split; [unfold Video.pause; rewrite <- Hp; now destruct v|].
  destruct (checkTime_paused cuts s v Hv Hp) as [Hv' _].
  assert (Hplay : isPlaying (checkTime cuts s) = false).
  { unfold checkTime. rewrite Hs, Hv, Hp, Hi. reflexivity. }
  split; [exact Hplay|].
  unfold togglePlay. rewrite Hv', Hplay. unfold Video.play. reflexivity.
Qed.

(** [loadedState] with [isPlaying] left true. *)
Lemma play_button_after_external_pause_witness :
  videoRef (setIsPlaying true loadedState) = Some (Video.mk true 0)
  /\ Video.paused (Video.mk true 0) = true
  /\ isScrubbing (setIsPlaying true loadedState) = false
  /\ isPlaying (setIsPlaying true loadedState) = true
  /\ videoRef (togglePlay true
                 (checkTime metricsCuts (setIsPlaying true loadedState)))
     = Some (Video.mk false 0).
Proof.
  split; [reflexivity|]. split; [reflexivity|].
  split; [reflexivity|]. split; [reflexivity|].
  exact (proj2 (proj2 (play_button_after_external_pause metricsCuts
                         (setIsPlaying true loadedState) (Video.mk true 0)
                         eq_refl eq_refl eq_refl eq_refl))).
Defined.

(** * The analysis of a short media *)

Lemma toFixed2_nonpos (x : Q) : x <= 0 -> Mock.toFixed2 x <= 0.
Proof.
  intros H. unfold Mock.toFixed2, Qdiv. change (/ 100) with (1 # 100).
  destruct (Num.ltb x 0) eqn:E.
  - assert (Hz : (0 <= Qfloor (- x * 100 + (1 # 2)))%Z).
    { change 0%Z with (Qfloor 0). apply Qfloor_resp_le. lra. }
    rewrite Zle_Qle in Hz. change (inject_Z 0) with 0 in Hz.
    set (n := inject_Z (Qfloor (- x * 100 + (1 # 2)))) in *. lra.
  - apply NumFacts.ltb_false in E.
    assert (Hx : x * 100 + (1 # 2) == 1 # 2) by lra.
    rewrite (Qfloor_comp _ _ Hx). intros C. discriminate C.
Qed.

(** For a media shorter than 5 seconds the analysis still returns five
    cuts, and none of them starts after the beginning of the media: every
    start is 0 or negative. *)
Theorem mock_cuts_short_media (duration : Q) (draws : nat -> Mock.Draws)
        (Hd : duration < 5) (Hr : forall i, Mock.inRange (draws i)) :
  List.length (Mock.analyzeVideoMock duration draws) = 5%nat
  /\ forall c, In c (Mock.analyzeVideoMock duration draws) ->
               start c <= 0 /\ status c = accepted.
Proof.
  split.
  - unfold Mock.analyzeVideoMock.
    rewrite (Permutation_length (sort_perm _)).
    unfold Mock.generated. rewrite length_map, length_seq.
    unfold Mock.numberOfCuts.
    assert (Qfloor (duration / 10) < 1)%Z.
    { apply Qfloor_below. change (inject_Z 1) with 1.
      apply Qlt_shift_div_r; lra. }
    replace (Z.max 5 (Qfloor (duration / 10))) with 5%Z by lia.
    reflexivity.
  - intros c Hc. destruct (generated_in _ _ _ Hc) as (i & ->).
    destruct (mockCut_fields duration i (draws i))
      as (len & _ & _ & Es & _ & Est & _).
    split; [|exact Est]. rewrite Es. apply toFixed2_nonpos.
    destruct (Hr i) as ((H0 & H1) & _).
    assert (H : 0 <= Mock.rStart (draws i) * (5 - duration))
      by (apply Qmult_le_0_compat; lra).
    lra.
Qed.

(** A media of 2 seconds and random numbers that are all one half: the
    five cuts start at -1.5. *)
Lemma mock_cuts_short_media_witness :
  2 < 5
  /\ (forall i : nat,
        Mock.inRange (Mock.mkDraws (1 # 2) (1 # 2) (1 # 2) (1 # 2)))
  /\ List.length
       (Mock.analyzeVideoMock 2
          (fun _ => Mock.mkDraws (1 # 2) (1 # 2) (1 # 2) (1 # 2)))
     = 5%nat.
Proof.
  assert (Hd : 2 < 5) by reflexivity.
  assert (Hr : forall i : nat,
             Mock.inRange (Mock.mkDraws (1 # 2) (1 # 2) (1 # 2) (1 # 2))).
  { intros _. unfold Mock.inRange. simpl.
    repeat split; first [intros E; discriminate E | reflexivity]. }
  split; [exact Hd|]. split; [exact Hr|].
  exact (proj1 (mock_cuts_short_media 2 _ Hd Hr)).
Defined.

(** * Instances of the playback lemmas *)

(** Two frames one second apart over [overlapCuts], from second 7. *)
Lemma playFrames_jumps_bounded_witness :
  Forall (fun d => 0 <= d) [1%Q; 1%Q]
  /\ (fst (playFrames overlapCuts [1%Q; 1%Q] 7)
      <= List.length (filter isAccepted overlapCuts))%nat.
Proof.
  assert (H : Forall (fun d => 0 <= d) [1%Q; 1%Q])
    by (repeat constructor; intros E; discriminate E).
  split; [exact H|].
  exact (proj2 (playFrames_jumps_bounded overlapCuts [1%Q; 1%Q] H 7)).
Defined.

(** A play-head at second 50 of 100 on a track of 500 pixels. *)
Lemma scrub_at_playhead_witness :
  0 < width (mkRect 0 500) /\ 0 < 100 /\ 0 <= 50 /\ 50 <= 100
  /\ timeFraction 50 100 = Some (50 / 100)
  /\ exists p,
       scrubPercentage (mkRect 0 500)
         (left (mkRect 0 500) + 50 / 100 * width (mkRect 0 500)) = Some p
       /\ toTime p 100 == 50.
Proof.
  assert (H1 : 0 < width (mkRect 0 500)) by reflexivity.
  assert (H2 : 0 < 100) by reflexivity.
  assert (H3 : 0 <= 50) by (intros E; discriminate E).
  assert (H4 : 50 <= 100) by (intros E; discriminate E).
  repeat (split; [assumption|]). split; [reflexivity|].
  exact (scrub_at_playhead (mkRect 0 500) 50 100 (50 / 100)
           H1 H2 H3 H4 eq_refl).
Defined.
